(** * A shallow embedding of the GASpy task pipeline and database helpers

    Sources: [tasks.py] (the luigi task classes), [gaspy/gasdb.py]
    (aggregation clean-up and document hashing) and [gaspy/defaults.py]
    (default parameter builders).  Python dictionaries are association
    lists in the order of their [keys()], floats are rationals [Q] unless
    the claim needs them abstract, and Python exceptions are [None]. *)

From Stdlib Require Import QArith Qminmax ZArith List String Bool Lia.
From Stdlib Require Import Wf_nat Wellfounded.
From stdpp Require Import base list gmap strings sorting pretty.

Open Scope string_scope.
#[local] Set Warnings "-register-all".

(** Option bind, for code that raises KeyError/TypeError/ValueError. *)
Notation "'let*' x ':=' c 'in' k" :=
  (match c with Some x => k | None => None end)
  (at level 200, x name, c at level 100, k at level 200).

(* ===================================================================== *)
(** ** gasdb._clean_up_aggregated_docs *)
Module CleanUp.

(** Scalar values found in a flat (aggregated) Mongo document. *)
Inductive pyval :=
| VNone
| VBool (b : bool)
| VInt (z : Z)
| VStr (s : string).

(** A flat document: its items in [keys()] order. *)
Definition doc := list (string * pyval).

(** A document produced by [$group]: the payload lives under ['_id']. *)
Record agg_doc := { agg_id : doc }.

Definition is_none (v : pyval) : bool :=
  match v with VNone => true | _ => false end.

(** [doc.keys() != expected_keys]: in Python 2 both are lists. *)
Definition keys_differ (d : doc) (expected_keys : list string) : bool :=
  negb (bool_decide (map fst d = expected_keys)).

(** The inner loop: [is_clean] becomes [False] at the first [None]. *)
Definition has_none_value (d : doc) : bool :=
  existsb (fun kv => is_none (snd kv)) d.

(** The outer loop.  A document with the wrong keys executes [break],
    which leaves the outer [for] loop. *)
Fixpoint clean_loop (docs : list doc) (expected_keys : list string)
  : list doc :=
  match docs with
  | [] => []
  | d :: rest =>
      if keys_differ d expected_keys then []
      else if has_none_value d then clean_loop rest expected_keys
      else d :: clean_loop rest expected_keys
  end.

Definition _clean_up_aggregated_docs (docs : list agg_doc)
  (expected_keys : list string) : list doc :=
  clean_loop (map agg_id docs) expected_keys.

(** The behaviour the claim describes: keep, in order, every payload
    whose key set is the expected one and that has no [None] value. *)
Definition same_key_set (d : doc) (expected_keys : list string) : bool :=
  bool_decide (map fst d ⊆ expected_keys /\ expected_keys ⊆ map fst d).

Definition claimed_clean_up (docs : list agg_doc)
  (expected_keys : list string) : list doc :=
  filter (fun d => same_key_set d expected_keys && negb (has_none_value d))
    (map agg_id docs).

End CleanUp.

(* ===================================================================== *)
(** ** tasks.GenerateSurfaces.run *)
Module Surfaces.

(** What [run] uses of a pymatgen [Slab]: its Miller index, its shift,
    its number of atoms and the entry [matrix[2][2]] of each symmetry
    operation found by [SpacegroupAnalyzer(slab).get_symmetry_operations()]. *)
Record slab := {
  miller_index : list Z;
  slab_shift : Q;
  slab_natoms : nat;
  symm_ops_m22 : list Z
}.

(** The [tags] dictionary of a saved slab document. *)
Record slab_tags := {
  tag_type : string;
  tag_top : bool;
  tag_mpid : string;
  tag_miller : list Z;
  tag_shift : Q;
  tag_num_slab_atoms : nat;
  tag_relaxed : bool
}.

(** [len([a for a in slabs if a.miller_index == slab.miller_index]) == 1] *)
Definition only_one_with_miller (slabs : list slab) (s : slab) : bool :=
  Nat.eqb
    (length (filter (fun a => bool_decide (miller_index a = miller_index s)) slabs))
    1.

(** [True in map(lambda x: x.as_dict()['matrix'][2][2] == -1, symm_ops)] *)
Definition z_invertible (s : slab) : bool :=
  existsb (fun m22 => Z.eqb m22 (-1)) (symm_ops_m22 s).

Definition make_tags (top : bool) (mpid : string) (miller : list Z)
  (shift : Q) (natoms : nat) : slab_tags :=
  {| tag_type := "slab"; tag_top := top; tag_mpid := mpid;
     tag_miller := miller; tag_shift := shift;
     tag_num_slab_atoms := natoms; tag_relaxed := false |}.

(** The body of [for slab in slabs]: appends to [slabsave].  [mpid] is
    [parameters['bulk']['mpid']] and [miller] is
    [parameters['slab']['miller']]. *)
Definition save_slab (mpid : string) (miller : list Z) (slabs : list slab)
  (slabsave : list slab_tags) (s : slab) : list slab_tags :=
  let shift := if only_one_with_miller slabs s then 0%Q else slab_shift s in
  let top := true in
  let slabsave := (slabsave ++ [make_tags top mpid miller shift (slab_natoms s)])%list in
  if negb (z_invertible s)
  then (slabsave ++ [make_tags (negb top) mpid miller shift (slab_natoms s)])%list
  else slabsave.

(** The tags of the documents pickled by [run], in order. *)
Definition generate_surfaces_run (mpid : string) (miller : list Z)
  (slabs : list slab) : list slab_tags :=
  fold_left (save_slab mpid miller slabs) slabs [].

(** The claim's description, slab by slab. *)
Definition claimed_docs (mpid : string) (miller : list Z)
  (slabs : list slab) (s : slab) : list slab_tags :=
  let shift := if only_one_with_miller slabs s then 0%Q else slab_shift s in
  let d := make_tags true mpid miller shift (slab_natoms s) in
  d :: (if z_invertible s then []
        else [{| tag_type := tag_type d; tag_top := false;
                 tag_mpid := tag_mpid d; tag_miller := tag_miller d;
                 tag_shift := tag_shift d;
                 tag_num_slab_atoms := tag_num_slab_atoms d;
                 tag_relaxed := tag_relaxed d |}]).

End Surfaces.

(* ===================================================================== *)
(** ** tasks.DumpBulkGasToAuxDB.run *)
Module Harvest.

(** A firework on the launchpad (the primary FireWorks database). *)
Record firework := {
  fw_id : Z;
  fw_state : string;
  fw_calculation_type : string;   (* fw.name['calculation_type'] *)
  fw_launch_dir : string          (* fw.launches[-1].launch_dir *)
}.

Definition launchpad := list firework.

(** A document of the auxiliary database; [doc_fwid] is [None] for the
    documents that [find({'fwid': {'$exists': True}})] does not return. *)
Record aux_doc := {
  doc_fwid : option Z;
  doc_type : option string;
  doc_directory : string
}.

Definition aux_db := list aux_doc.

(** [lpad.get_fw_ids({'state': state, 'name.calculation_type': ct})] *)
Definition get_fw_ids (lp : launchpad) (state ct : string) : list Z :=
  fw_id <$> (filter (fun fw => bool_decide (fw_state fw = state)
                               && bool_decide (fw_calculation_type fw = ct)) lp).

(** [lpad.get_fw_by_id(fwid)] *)
Definition get_fw_by_id (lp : launchpad) (fwid : Z) : option firework :=
  find (fun fw => Z.eqb (fw_id fw) fwid) lp.

(** [[a['fwid'] for a in aux_db.find({'fwid':{'$exists':True}})]] *)
Definition existing_fwids (db : aux_db) : list Z :=
  omap doc_fwid db.

(** The document built for a firework, with its ['type']. *)
Definition make_doc (fw : firework) (fwid : Z) : aux_doc :=
  {| doc_fwid := Some fwid;
     doc_type :=
       if bool_decide (fw_calculation_type fw = "unit cell optimization")
       then Some "bulk"
       else if bool_decide (fw_calculation_type fw = "gas phase optimization")
       then Some "gas" else None;
     doc_directory := fw_launch_dir fw |}.

(** The loop [for fwid in fws_cmpltd]; [fws] is computed once, before
    the loop, and [aux_db.write(doc)] appends. *)
Fixpoint dump_loop (lp : launchpad) (fws : list Z) (todo : list Z)
  (db : aux_db) : option aux_db :=
  match todo with
  | [] => Some db
  | fwid :: rest =>
      if bool_decide (fwid ∈ fws) then dump_loop lp fws rest db
      else let* fw := get_fw_by_id lp fwid in
           dump_loop lp fws rest (db ++ [make_doc fw fwid])%list
  end.

Definition fws_cmpltd (lp : launchpad) : list Z :=
  (get_fw_ids lp "COMPLETED" "unit cell optimization"
   ++ get_fw_ids lp "COMPLETED" "gas phase optimization")%list.

Definition dump_bulk_gas_run (lp : launchpad) (db : aux_db) : option aux_db :=
  let fws := existing_fwids db in
  dump_loop lp fws (fws_cmpltd lp) db.

End Harvest.

(* ===================================================================== *)
(** ** tasks.CalculateEnergy.run *)
Module Energy.
Local Open Scope Q_scope.

(** [np.argmin]: index of the first minimal element; ValueError on []. *)
Fixpoint argmin_from (l : list Q) (i best : nat) (bestv : Q) : nat :=
  match l with
  | [] => best
  | x :: r => if Qlt_le_dec x bestv then argmin_from r (S i) i x
              else argmin_from r (S i) best bestv
  end.

Definition np_argmin (l : list Q) : option nat :=
  match l with
  | [] => None
  | x :: r => Some (argmin_from r 1%nat 0%nat x)
  end.

(** [np.min]: ValueError on []. *)
Definition np_min (l : list Q) : option Q :=
  match l with
  | [] => None
  | x :: r => Some (fold_left Qmin r x)
  end.

(** [np.sum] of a list (0 for the empty list). *)
Definition np_sum (l : list Q) : Q := fold_left Qplus l 0.

(** The three gas energies read from [inputs[2]], [inputs[3]], [inputs[4]]. *)
Record gas_energies := { E_CO : Q; E_H2 : Q; E_H2O : Q }.

(** [mono_atom_energies[x]]: KeyError outside of H, O and C. *)
Definition mono_atom_energies (g : gas_energies) (sym : string) : option Q :=
  if bool_decide (sym = "H") then Some (E_H2 g / 2)
  else if bool_decide (sym = "O") then Some (E_H2O g - E_H2 g)
  else if bool_decide (sym = "C") then Some (E_CO g - (E_H2O g - E_H2 g))
  else None.

Fixpoint map_opt {A B} (f : A -> option B) (l : list A) : option (list B) :=
  match l with
  | [] => Some []
  | x :: r => let* y := f x in let* ys := map_opt f r in Some (y :: ys)
  end.

Section Run.
(** [ads_dict(name).get_chemical_symbols()]: [ads_dict] is not defined
    under src/tasks.py, so it is left as an arbitrary lookup. *)
Variable ads_dict : string -> option (list string).

(** [for ads in adsorbates: gas_energy += np.sum(map(...))] *)
Fixpoint gas_energy_loop (g : gas_energies) (ads : list string) (acc : Q)
  : option Q :=
  match ads with
  | [] => Some acc
  | name :: rest =>
      let* syms := ads_dict name in
      let* es := map_opt (mono_atom_energies g) syms in
      gas_energy_loop g rest (acc + np_sum es)
  end.

(** The adsorption energy [dE] computed by [run]; [slab_ads] and
    [slab_blank] are the potential energies of the candidates. *)
Definition calculate_energy_dE (g : gas_energies) (slab_ads slab_blank : list Q)
  (adsorbates : list string) : option Q :=
  let* lowest_energy_slab := np_argmin slab_ads in
  let* slab_ads_energy := nth_error slab_ads lowest_energy_slab in
  let* _lowest_energy_blank := np_argmin slab_blank in
  let* slab_blank_energy := np_min slab_blank in
  let* gas_energy := gas_energy_loop g adsorbates 0 in
  Some (slab_ads_energy - slab_blank_energy - gas_energy).

(** The claim's formula. *)
Definition ref_H (g : gas_energies) : Q := E_H2 g / 2.
Definition ref_O (g : gas_energies) : Q := E_H2O g - E_H2 g.
Definition ref_C (g : gas_energies) : Q := E_CO g - (E_H2O g - E_H2 g).
Definition ref_energy (g : gas_energies) (sym : string) : Q :=
  if bool_decide (sym = "H") then ref_H g
  else if bool_decide (sym = "O") then ref_O g else ref_C g.

Definition list_min (x : Q) (r : list Q) : Q := fold_right Qmin x r.

Definition adsorbate_atoms (adsorbates : list string) : list string :=
  concat (map (fun n => default [] (ads_dict n)) adsorbates).

Definition claimed_dE (g : gas_energies) (ea eb : Q) (ra rb : list Q)
  (adsorbates : list string) : Q :=
  list_min ea ra - list_min eb rb
  - fold_right Qplus 0 (map (ref_energy g) (adsorbate_atoms adsorbates)).
End Run.

End Energy.

(* ===================================================================== *)
(** ** The luigi task classes of tasks.py and their [requires] methods *)
Module Tasks.

(** A luigi [DictParameter]: a JSON-like Python value. *)
Inductive json :=
| JNull
| JBool (b : bool)
| JInt (z : Z)
| JStr (s : string)
| JList (l : list json)
| JDict (kvs : list (string * json)).

(** [d[k]]: KeyError on a missing key, TypeError on a non-dict. *)
Definition getitem (d : json) (k : string) : option json :=
  match d with
  | JDict kvs => option_map snd (find (fun kv => bool_decide (fst kv = k)) kvs)
  | _ => None
  end.

(** [k in d] *)
Definition contains (d : json) (k : string) : bool :=
  match d with
  | JDict kvs => existsb (fun kv => bool_decide (fst kv = k)) kvs
  | _ => false
  end.

Fixpoint set_assoc (kvs : list (string * json)) (k : string) (v : json)
  : list (string * json) :=
  match kvs with
  | [] => [(k, v)]
  | (k', v') :: rest =>
      if bool_decide (k' = k) then (k, v) :: rest else (k', v') :: set_assoc rest k v
  end.

(** [d[k] = v] on a (deep-copied) dict. *)
Definition setitem (d : json) (k : string) (v : json) : option json :=
  match d with
  | JDict kvs => Some (JDict (set_assoc kvs k v))
  | _ => None
  end.

(** [del d[k]]: KeyError on a missing key. *)
Definition delitem (d : json) (k : string) : option json :=
  match d with
  | JDict kvs =>
      if existsb (fun kv => bool_decide (fst kv = k)) kvs
      then Some (JDict (filter (fun kv => negb (bool_decide (fst kv = k))) kvs))
      else None
  | _ => None
  end.

(** Python truthiness. *)
Definition truthy (v : json) : bool :=
  match v with
  | JNull => false
  | JBool b => b
  | JInt z => negb (Z.eqb z 0)
  | JStr s => negb (bool_decide (s = ""))
  | JList l => negb (bool_decide (l = []))
  | JDict kvs => negb (bool_decide (kvs = []))
  end.

(** [param = copy.deepcopy(p); param[k1][k2] = v] *)
Definition set_nested (p : json) (k1 k2 : string) (v : json) : option json :=
  let* inner := getitem p k1 in
  let* inner' := setitem inner k2 v in
  setitem p k1 inner'.

(** [param = copy.deepcopy(p); del param[k1][k2]] *)
Definition del_nested (p : json) (k1 k2 : string) : option json :=
  let* inner := getitem p k1 in
  let* inner' := delitem inner k2 in
  setitem p k1 inner'.

(** [pickle.dumps(Atoms('')).encode('hex')]: an opaque constant string. *)
Definition empty_atoms_hex : string := "pickled-empty-Atoms".

(** [[OrderedDict(name='', atoms=pickle.dumps(Atoms('')).encode('hex'))]] *)
Definition no_adsorbates : json :=
  JList [JDict [("name", JStr ""); ("atoms", JStr empty_atoms_hex)]].

(** One row of the Auxiliary DB read by [UpdateAllDB.requires], with the
    [parameters] dictionary the loop builds from it. *)
Record aux_row := {
  row_fwid : Z;
  row_adsorbate : string;
  row_parameters : json
}.

(** The database state that the [requires] methods of the two dump
    tasks read: the [GenerateSurfaces] parameters built for old
    results without a shift ([DumpSurfacesToAuxDB.requires]), the
    ['slab+adsorbate'] rows of the Auxiliary DB and the fwids already
    in the Local energy DB ([UpdateAllDB.requires]). *)
Record db_env := {
  env_missing_shift_surfaces : list json;
  env_rows : list aux_row;
  env_local_fwids : list Z
}.

Inductive task :=
| DumpBulkGasToAuxDB
| DumpSurfacesToAuxDB
| UpdateAllDB (writeDB : bool) (max_processes : Z)
| GenerateBulk (parameters : json)
| GenerateGas (parameters : json)
| GenerateSurfaces (parameters : json)
| GenerateSiteMarkers (parameters : json)
| GenerateAdslabs (parameters : json)
| CalculateEnergy (parameters : json)
| FingerprintRelaxedAdslab (parameters : json)
| FingerprintUnrelaxedAdslabs (parameters : json)
| DumpToLocalDB (parameters : json)
| UpdateEnumerations (parameters : json)
| SubmitToFW (calctype : string) (parameters : json).

(** Modelled from the spec: [SubmitToFW] is not under src/.  The spec
    stages "structure generation -> job submission": a submission
    requires the generation of the structure it submits. *)
Definition submit_to_fw_requires (calctype : string) (p : json)
  : option (list task) :=
  if bool_decide (calctype = "bulk") then Some [GenerateBulk p]
  else if bool_decide (calctype = "gas") then Some [GenerateGas p]
  else if bool_decide (calctype = "slab") then Some [GenerateSurfaces p]
  else if bool_decide (calctype = "slab+adsorbate") then Some [GenerateAdslabs p]
  else Some [].

(** [{'bulk': p['bulk']}] *)
Definition bulk_only (p : json) : option json :=
  let* b := getitem p "bulk" in Some (JDict [("bulk", b)]).

Definition is_unrelaxed (p : json) : bool :=
  contains p "unrelaxed" && default false (option_map truthy (getitem p "unrelaxed")).

(** The loop of [UpdateAllDB.requires] over the rows of the Aux DB. *)
Fixpoint update_all_loop (writeDB : bool) (max_processes : Z) (fwids : list Z)
  (i : Z) (rows : list aux_row) : list task :=
  match rows with
  | [] => []
  | row :: rest =>
      if Z.eqb (i + 1) max_processes then []
      else
        let rest_tasks := update_all_loop writeDB max_processes fwids (i + 1) rest in
        if negb (bool_decide (row_fwid row ∈ fwids))
           && negb (bool_decide (row_adsorbate row = ""))
           && (Z.eqb max_processes 0 || (Z.ltb 0 max_processes && Z.ltb i max_processes))
        then (if writeDB then DumpToLocalDB (row_parameters row)
              else FingerprintRelaxedAdslab (row_parameters row)) :: rest_tasks
        else rest_tasks
  end.

(** [for gasname in ['CO', 'H2', 'H2O']: param = copy.deepcopy({'gas': gas});
    param['gas']['gasname'] = gasname] *)
Definition map_opt_gas (gas : json) : option (list json) :=
  let* co := setitem gas "gasname" (JStr "CO") in
  let* h2 := setitem gas "gasname" (JStr "H2") in
  let* h2o := setitem gas "gasname" (JStr "H2O") in
  Some [JDict [("gas", co)]; JDict [("gas", h2)]; JDict [("gas", h2o)]].

(** The [requires] method of each class ([None]: it raises). *)
Definition requires (env : db_env) (t : task) : option (list task) :=
  match t with
  | DumpBulkGasToAuxDB => Some []
  | DumpSurfacesToAuxDB =>
      Some (map GenerateSurfaces (env_missing_shift_surfaces env))
  | UpdateAllDB writeDB max_processes =>
      Some (DumpSurfacesToAuxDB
            :: update_all_loop writeDB max_processes (env_local_fwids env) 0
                 (env_rows env))
  | GenerateBulk _ => Some []
  | GenerateGas _ => Some []
  | GenerateSurfaces p =>
      let* b := bulk_only p in
      if is_unrelaxed p then Some [GenerateBulk b]
      else Some [SubmitToFW "bulk" b]
  | GenerateSiteMarkers p =>
      let* bk := getitem p "bulk" in
      if is_unrelaxed p then
        let* sl := getitem p "slab" in
        Some [GenerateSurfaces (JDict [("unrelaxed", JBool true); ("bulk", bk);
                                       ("slab", sl)]);
              GenerateBulk (JDict [("bulk", bk)])]
      else
        let* sl := getitem p "slab" in
        Some [SubmitToFW "slab" (JDict [("bulk", bk); ("slab", sl)]);
              SubmitToFW "bulk" (JDict [("bulk", bk)])]
  | GenerateAdslabs p =>
      let* p' := del_nested p "adsorption" "adsorbates" in
      Some [GenerateSiteMarkers p']
  | CalculateEnergy p =>
      let* blank := set_nested p "adsorption" "adsorbates" no_adsorbates in
      let* gas := getitem p "gas" in
      let* gases := map_opt_gas gas in
      Some (SubmitToFW "slab+adsorbate" p :: SubmitToFW "slab+adsorbate" blank
            :: map (SubmitToFW "gas") gases)
  | FingerprintRelaxedAdslab p =>
      let* param := set_nested p "adsorption" "adsorbates" no_adsorbates in
      Some [CalculateEnergy p; SubmitToFW "slab+adsorbate" param]
  | FingerprintUnrelaxedAdslabs p =>
      let* param_slab := set_nested p "adsorption" "adsorbates" no_adsorbates in
      Some [GenerateAdslabs p; GenerateAdslabs param_slab]
  | DumpToLocalDB p =>
      let* b := bulk_only p in
      Some [CalculateEnergy p; FingerprintRelaxedAdslab p; SubmitToFW "bulk" b]
  | UpdateEnumerations p => Some [FingerprintUnrelaxedAdslabs p]
  | SubmitToFW calctype p => submit_to_fw_requires calctype p
  end.

End Tasks.

(* ===================================================================== *)
(** ** Completion tokens and the luigi worker *)
Module Scheduler.
Import Tasks.

Definition LOCAL_DB_PATH : string := "/global/cscratch1/sd/zulissi/GASpy_DB/".

Section Worker.
(** luigi's [Task.task_id] (computed by luigi from the class and the
    parameters). *)
Variable task_id : task -> string.

Definition pickle_path (t : task) : string :=
  LOCAL_DB_PATH ++ "/pickles/" ++ task_id t ++ ".pkl".

(** The [output()] of each class.  [DumpBulkGasToAuxDB] defines no
    [output]; [UpdateAllDB] is a [WrapperTask].  For [SubmitToFW]
    (not under src/, modelled from the spec) the output is its
    parameter-keyed pickle like every other task's. *)
Definition output (t : task) : option string :=
  match t with
  | DumpBulkGasToAuxDB => None
  | UpdateAllDB _ _ => None
  | DumpSurfacesToAuxDB => Some (LOCAL_DB_PATH ++ "/DumpToAuxDB.token")
  | _ => Some (pickle_path t)
  end.

(** Whether the class has a [run] method. *)
Definition has_run (t : task) : bool :=
  match t with UpdateAllDB _ _ => false | _ => true end.

(** The files a complete [run] creates: its output through
    [temporary_path()] and, for the two Local-DB dumps, the ase-db
    file opened by [connect]. *)
Definition run_writes (t : task) : list string :=
  match t with
  | DumpToLocalDB _ =>
      (LOCAL_DB_PATH ++ "/adsorption_energy_database.db") :: option_list (output t)
  | UpdateEnumerations _ =>
      (LOCAL_DB_PATH ++ "/enumerated_adsorption_sites.db") :: option_list (output t)
  | _ => option_list (output t)
  end.

(** A run may stop early (an exception), having created only some of
    these files; no run deletes a file. *)
Definition run_effect (fs : list string) (t : task) (fs' : list string) : Prop :=
  exists w, w ⊆ run_writes t /\ fs' = (fs ++ w)%list.

(** luigi's [Task.complete()]: all outputs exist; [False] for a task
    without outputs. *)
Definition complete (fs : list string) (t : task) : Prop :=
  match output t with Some f => f ∈ fs | None => False end.

(** One execution of a [run] method: either by the luigi worker, which
    only runs incomplete tasks, or the direct call
    [DumpBulkGasToAuxDB().run()] made by [UpdateAllDB.requires]. *)
Inductive sched_step : list string -> task -> list string -> Prop :=
| step_worker fs t fs' :
    has_run t = true -> ~ complete fs t -> run_effect fs t fs' ->
    sched_step fs t fs'
| step_update_all_db fs fs' :
    run_effect fs DumpBulkGasToAuxDB fs' ->
    sched_step fs DumpBulkGasToAuxDB fs'.

(** Repeated pipeline invocations: a sequence of runs, each logged with
    the files that existed when it started. *)
Inductive exec : list string -> list (list string * task) -> list string -> Prop :=
| exec_nil fs : exec fs [] fs
| exec_cons fs t fs' log fs'' :
    sched_step fs t fs' -> exec fs' log fs'' -> exec fs ((fs, t) :: log) fs''.
End Worker.

End Scheduler.

(* ===================================================================== *)
(** ** gasdb._hash_doc and gasdb._hash_docs *)
Module Hashing.

Section Floats.
(** Python floats, [round(value, 2)], [str] of a float and the builtin
    [hash] of a string are left abstract. *)
Variable F : Type.
Variable py_round2 : F -> F.
Variable str_float : F -> string.
Variable py_hash : string -> Z.

(** The values of a flat Mongo document. *)
Inductive hval :=
| HNone
| HBool (b : bool)
| HInt (z : Z)
| HStr (s : string)
| HFloat (x : F).

(** [str(value)] *)
Definition py_str (v : hval) : string :=
  match v with
  | HNone => "None"
  | HBool true => "True"
  | HBool false => "False"
  | HInt z => pretty z
  | HStr s => s
  | HFloat x => str_float x
  end.

(** A flat document (a dict: its keys are distinct). *)
Definition hdoc := list (string * hval).

Definition doc_get (d : hdoc) (k : string) : option hval :=
  option_map snd (find (fun kv => bool_decide (fst kv = k)) d).

(** [if isinstance(value, float): value = round(value, 2)] *)
Definition clean_value (v : hval) : hval :=
  match v with HFloat x => HFloat (py_round2 x) | _ => v end.

(** [sorted(doc.keys())]: the keys in increasing byte order. *)
Definition sorted_keys (d : hdoc) : list string :=
  merge_sort String.le (map fst d).

Definition hash_step (d : hdoc) (ignore_keys : list string)
  (system : string) (key : string) : string :=
  if bool_decide (key ∈ ignore_keys) then system
  else match doc_get d key with
       | Some value =>
           system ++ (key ++ "=" ++ py_str (clean_value value) ++ "; ")
       | None => system
       end.

(** [_hash_doc(doc, ignore_keys, _return_hash=False)]: the pre-hash string. *)
Definition _hash_doc_system (d : hdoc) (ignore_keys : list string) : string :=
  fold_left (hash_step d ignore_keys) (sorted_keys d) "".

(** [_hash_doc(doc, ignore_keys)] *)
Definition _hash_doc (d : hdoc) (ignore_keys : list string) : Z :=
  py_hash (_hash_doc_system d ignore_keys).

(** [_hash_docs]: ['mongo_id'] is appended to the ignored keys. *)
Definition _hash_docs_ignore (ignore_keys : list string) : list string :=
  (ignore_keys ++ ["mongo_id"])%list.

Definition _hash_docs_systems (docs : list hdoc) (ignore_keys : list string)
  : list string :=
  map (fun d => _hash_doc_system d (_hash_docs_ignore ignore_keys)) docs.

Definition _hash_docs (docs : list hdoc) (ignore_keys : list string) : list Z :=
  map (fun d => _hash_doc d (_hash_docs_ignore ignore_keys)) docs.

(** Agreement in the claim's sense: floats agree when they round to the
    same value at two decimals, other values when they are equal. *)
Definition values_agree (v1 v2 : hval) : Prop :=
  match v1, v2 with
  | HFloat x, HFloat y => py_round2 x = py_round2 y
  | _, _ => v1 = v2
  end.

Definition docs_agree_outside (ignore : list string) (d1 d2 : hdoc) : Prop :=
  forall k, k ∉ ignore ->
    match doc_get d1 k, doc_get d2 k with
    | None, None => True
    | Some v1, Some v2 => values_agree v1 v2
    | _, _ => False
    end.
End Floats.

Arguments HNone {F}.
Arguments HBool {F} b.
Arguments HInt {F} z.
Arguments HStr {F} s.
Arguments HFloat {F} x.

End Hashing.

(* ===================================================================== *)
(** ** gasdb.get_unsimulated_catalog_docs *)
Module Unsimulated.
Import Hashing.

Section Floats.
Variable F : Type.
Variable py_round2 : F -> F.
Variable str_float : F -> string.
Variable py_hash : string -> Z.

Definition simulated_ignore : list string :=
  ["mongo_id"; "formula"; "energy"; "adsorbates"; "adslab_calculation_date"].

Definition catalog_ignore : list string := ["mongo_id"; "formula"].

(** [get_unsimulated_catalog_docs(adsorbates)], given the documents that
    [_get_attempted_adsorption_docs(adsorbates)] and [get_catalog_docs()]
    read from the database. *)
Definition get_unsimulated_catalog_docs (docs_simulated docs_catalog : list (hdoc F))
  : list (hdoc F) :=
  let hashes_simulated :=
    _hash_docs F py_round2 str_float py_hash docs_simulated simulated_ignore in
  let hashes_catalog :=
    _hash_docs F py_round2 str_float py_hash docs_catalog catalog_ignore in
  (* set(hashes_catalog) - set(hashes_simulated) *)
  let hashes_unsimulated :=
    List.filter (fun h => negb (bool_decide (h ∈ hashes_simulated))) hashes_catalog in
  map fst (List.filter (fun dh => bool_decide (snd dh ∈ hashes_unsimulated))
             (combine docs_catalog hashes_catalog)).
End Floats.

End Unsimulated.

(* ===================================================================== *)
(** ** gasdb._remove_duplicates_in_a_collection *)
Module Dedup.

Section Collection.
(** The values the identifying query picks out of the documents. *)
Variable K : Type.
Context `{EqDecision K}.
(** Mongo leaves open in which order [$group] lists the groups and in
    which order [$addToSet] lists the distinct ids of a group. *)
Variable group_order : list K -> list K.
Variable add_to_set : K -> list Z -> list Z.

(** A document of the collection: its [_id] and its identifying value. *)
Definition mdoc := (Z * K)%type.

(** An output document of the [$group] stage. *)
Record group := { group_key : K; mongo_ids : list Z; count : nat }.

Definition group_ids (coll : list mdoc) (k : K) : list Z :=
  map fst (List.filter (fun d => bool_decide (snd d = k)) coll).

(** [collection.aggregate([{'$group': group}, {'$match': match}])] *)
Definition aggregate (coll : list mdoc) : list group :=
  List.filter (fun g => Nat.ltb 1 (count g))
    (map (fun k => {| group_key := k;
                      mongo_ids := add_to_set k (group_ids coll k);
                      count := length (group_ids coll k) |})
       (group_order (remove_dups (map snd coll)))).

(** [collection.delete_one({'_id': id_})] *)
Fixpoint delete_one (id_ : Z) (coll : list mdoc) : list mdoc :=
  match coll with
  | [] => []
  | d :: rest => if Z.eqb (fst d) id_ then rest else d :: delete_one id_ rest
  end.

(** [_remove_duplicates_in_a_collection]: the collection afterwards. *)
Definition _remove_duplicates_in_a_collection (coll : list mdoc) : list mdoc :=
  let docs := aggregate coll in
  fold_left (fun c doc =>
               let extra_mongo_ids := tail (mongo_ids doc) in
               fold_left (fun c id_ => delete_one id_ c) extra_mongo_ids c)
            docs coll.
End Collection.

End Dedup.

(* ===================================================================== *)
(** ** gasdb.chunks, as [MakeImages] consumes it *)
Module Chunks.

(** [sys.maxsize] on a 64-bit build. *)
Definition sys_maxsize : Z := 2 ^ 63 - 1.

(** [for chunk in chunks(todo, size): chunk = list(chunk)]: each chunk is
    its [first] element and [islice(iterator, size-1)], which raises a
    ValueError for a stop [size-1] outside [0 <= x <= sys.maxsize].  The
    fuel, the length of the list, is never exhausted: each chunk takes at
    least one element. *)
Fixpoint chunks_fuel {A} (fuel : nat) (size : Z) (l : list A) : option (list (list A)) :=
  match l with
  | [] => Some []
  | first :: rest =>
      match fuel with
      | O => None
      | S fuel' =>
          if Z.ltb (size - 1) 0 || Z.ltb sys_maxsize (size - 1) then None
          else
            let n := Z.to_nat (size - 1) in
            let* cs := chunks_fuel fuel' size (drop n rest) in
            Some ((first :: take n rest) :: cs)
      end
  end.

Definition chunks {A} (size : Z) (l : list A) : option (list (list A)) :=
  chunks_fuel (length l) size l.

End Chunks.

(* ===================================================================== *)
(** ** gaspy.defaults: calc_settings, gas_parameters, bulk_parameters *)
Module Defaults.

(** Python values; dictionaries live in the heap and are referred to. *)
Inductive val :=
| VNone
| VBool (b : bool)
| VInt (z : Z)
| VFloat (q : Q)
| VStr (s : string)
| VInts (l : list Z)        (* a list of ints such as [kpts] *)
| VRef (l : positive).      (* an (Ordered)dict object *)

Definition dict := list (string * val).
Notation heap := (gmap positive dict).

(** A state-and-exception monad: an exception keeps the heap as it is
    when the exception is raised. *)
Definition M (A : Type) := heap -> option A * heap.

Definition ret {A} (a : A) : M A := fun h => (Some a, h).
Definition raise {A} : M A := fun h => (None, h).
Definition bind {A B} (m : M A) (k : A -> M B) : M B :=
  fun h => match m h with
           | (Some a, h') => k a h'
           | (None, h') => (None, h')
           end.

Notation "'let!' x ':=' m 'in' k" := (bind m (fun x => k))
  (at level 200, x name, m at level 100, k at level 200).

Definition alloc (d : dict) : M positive :=
  fun h => let l := fresh (dom h) in (Some l, <[l := d]> h).

Definition read (l : positive) : M dict :=
  fun h => match h !! l with Some d => (Some d, h) | None => (None, h) end.

Definition write (l : positive) (d : dict) : M unit :=
  fun h => (Some tt, <[l := d]> h).

Fixpoint dict_set (d : dict) (k : string) (v : val) : dict :=
  match d with
  | [] => [(k, v)]
  | (k', v') :: rest =>
      if bool_decide (k' = k) then (k, v) :: rest else (k', v') :: dict_set rest k v
  end.

Definition dict_get (d : dict) (k : string) : option val :=
  option_map snd (find (fun kv => bool_decide (fst kv = k)) d).

(** [obj[k] = v]: a TypeError unless [obj] is a dict. *)
Definition setitem (obj : val) (k : string) (v : val) : M unit :=
  match obj with
  | VRef l => let! d := read l in write l (dict_set d k v)
  | _ => raise
  end.

(** [obj[k]] *)
Definition getitem (obj : val) (k : string) : M val :=
  match obj with
  | VRef l => let! d := read l in
              match dict_get d k with Some v => ret v | None => raise end
  | _ => raise
  end.

(** [copy.deepcopy] of the items of a dict, each value copied by [cp]. *)
Fixpoint copy_items (cp : val -> M val) (items : dict) : M dict :=
  match items with
  | [] => ret []
  | (k, x) :: rest =>
      let! x' := cp x in
      let! rest' := copy_items cp rest in
      ret ((k, x') :: rest')
  end.

(** [copy.deepcopy]: copies every dict reachable from the value; the
    depth is bounded by the size of the heap (acyclic dicts). *)
Fixpoint deepcopy_fuel (fuel : nat) (v : val) : M val :=
  match v with
  | VRef l =>
      match fuel with
      | O => raise
      | S fuel' =>
          let! d := read l in
          let! d' := copy_items (deepcopy_fuel fuel') d in
          let! l' := alloc d' in
          ret (VRef l')
      end
  | _ => ret v
  end.

Definition deepcopy (v : val) : M val :=
  fun h => deepcopy_fuel (S (size h)) v h.

(** [OrderedDict(k1=v1, ..., **settings)]: a TypeError when [settings]
    repeats one of the explicit keywords. *)
Definition ordered_dict_kwargs (explicit : dict) (settings : val) : M val :=
  match settings with
  | VRef l =>
      let! d := read l in
      if existsb (fun kv => bool_decide (fst kv ∈ map fst explicit)) d
      then raise
      else let! l' := alloc (explicit ++ d)%list in ret (VRef l')
  | _ => raise
  end.

Section WithVasp.
(** The module-level dict [Vasp.xc_defaults] of the vasp package. *)
Variable xc_defaults : positive.

(** [xc_settings(xc)] *)
Definition xc_settings (xc : string) : M val :=
  if bool_decide (xc = "rpbe") then
    let! l := alloc [("gga", VStr "RP"); ("pp", VStr "PBE")] in ret (VRef l)
  else
    let! defaults := read xc_defaults in
    match dict_get defaults xc with
    | Some (VRef src) => let! d := read src in let! l := alloc d in ret (VRef l)
    | _ => raise
    end.

(** [for key in default_settings: settings[key] = default_settings[key]] *)
Fixpoint copy_keys (settings default_settings : val) (keys : list string) : M unit :=
  match keys with
  | [] => ret tt
  | key :: rest =>
      let! v := getitem default_settings key in
      let! _ := setitem settings key v in
      copy_keys settings default_settings rest
  end.

(** [calc_settings(xc)] *)
Definition calc_settings (xc : string) : M val :=
  let! l := alloc [("encut", VInt 350); ("pp_version", VStr "5.4")] in
  let! default_settings := xc_settings xc in
  let! keys := (match default_settings with
           | VRef ld => let! d := read ld in ret (map fst d)
           | _ => raise
           end) in
  let! _ := copy_keys (VRef l) default_settings keys in
  ret (VRef l).

(** [if isinstance(settings, str): settings = calc_settings(settings)] *)
Definition resolve_settings (settings : val) : M val :=
  match settings with
  | VStr xc => calc_settings xc
  | _ => ret settings
  end.

(** [gas_parameters(gasname, settings)] *)
Definition gas_parameters (gasname : string) (settings : val) : M val :=
  let! settings := resolve_settings settings in
  let! vs := ordered_dict_kwargs
          [("ibrion", VInt 2); ("nsw", VInt 100); ("isif", VInt 0);
           ("kpts", VInts [1; 1; 1]%Z); ("ediffg", VFloat (-3 # 100)%Q)] settings in
  let! l := alloc [("gasname", VStr gasname); ("relaxed", VBool true);
              ("vasp_settings", vs)] in
  ret (VRef l).

(** The part of [bulk_parameters] after the settings are resolved. *)
Definition bulk_parameters_rest (mpid : string) (encut : Q) (max_atoms : Z)
  (settings : val) : M val :=
  let! settings := deepcopy settings in
  let! _ := setitem settings "encut" (VFloat encut) in
  let! vs := ordered_dict_kwargs
          [("ibrion", VInt 1); ("nsw", VInt 100); ("isif", VInt 7);
           ("isym", VInt 0); ("ediff", VFloat (1 # 100000000)%Q);
           ("kpts", VInts [10; 10; 10]%Z); ("prec", VStr "Accurate")] settings in
  let! l := alloc [("mpid", VStr mpid); ("relaxed", VBool true);
              ("max_atoms", VInt max_atoms); ("vasp_settings", vs)] in
  ret (VRef l).

(** [bulk_parameters(mpid, settings, encut, max_atoms)] *)
Definition bulk_parameters (mpid : string) (settings : val) (encut : Q)
  (max_atoms : Z) : M val :=
  let! settings := resolve_settings settings in
  bulk_parameters_rest mpid encut max_atoms settings.
(** [slab_parameters(miller, top, shift, settings)] *)
Definition slab_parameters (miller top shift settings : val) : M val :=
  let! settings := resolve_settings settings in
  let! vs := ordered_dict_kwargs
          [("ibrion", VInt 2); ("nsw", VInt 100); ("isif", VInt 0);
           ("isym", VInt 0); ("kpts", VInts [4; 4; 1]%Z); ("lreal", VStr "Auto");
           ("ediffg", VFloat (-3 # 100)%Q)] settings in
  let! sg := alloc [("min_slab_size", VFloat 7); ("min_vacuum_size", VFloat 20);
               ("lll_reduce", VBool false); ("center_slab", VBool true);
               ("primitive", VBool true); ("max_normal_search", VInt 1)] in
  let! gs := alloc [("tol", VFloat (3 # 10)%Q); ("bonds", VNone);
               ("max_broken_bonds", VInt 0); ("symmetrize", VBool false)] in
  let! l := alloc [("miller", miller); ("top", top); ("max_miller", VInt 2);
              ("shift", shift); ("relaxed", VBool true); ("vasp_settings", vs);
              ("slab_generate_settings", VRef sg); ("get_slab_settings", VRef gs)] in
  ret (VRef l).

(** The dict that [xc_settings(xc)] copies, read in the heap [h]. *)
Definition calc_settings_source (h : heap) (xc : string) : option dict :=
  if bool_decide (xc = "rpbe") then Some [("gga", VStr "RP"); ("pp", VStr "PBE")]
  else match h !! xc_defaults with
       | Some defaults =>
           match dict_get defaults xc with
           | Some (VRef src) => h !! src
           | _ => None
           end
       | None => None
       end.
End WithVasp.

(** The dict [settings] after [settings[key] = default_settings[key]] for
    each key in turn. *)
Definition copy_keys_dict (settings default_settings : dict) (keys : list string) : dict :=
  fold_left (fun acc key => match dict_get default_settings key with
                            | Some v => dict_set acc key v
                            | None => acc
                            end) keys settings.

(** The dict [calc_settings] builds from the copied [xc_settings]. *)
Definition calc_settings_dict (default_settings : dict) : dict :=
  copy_keys_dict [("encut", VInt 350); ("pp_version", VStr "5.4")]
    default_settings (map fst default_settings).

(** The dict that [settings] stands for after
    [if isinstance(settings, str): settings = calc_settings(settings)],
    read in the heap [h] of the call. *)
Definition settings_dict (xc_defaults : positive) (h : heap) (settings : val) : option dict :=
  match settings with
  | VStr xc => option_map calc_settings_dict (calc_settings_source xc_defaults h xc)
  | VRef l => h !! l
  | _ => None
  end.

(** The dict a call returns, read in the heap it leaves. *)
Definition result_dict (r : option val * heap) : option dict :=
  match r with
  | (Some (VRef l), h) => h !! l
  | _ => None
  end.

End Defaults.

(* ===================================================================== *)
(** ** The dependency relation generated by [requires] *)
Module TaskGraph.
Import Tasks.

(** [t] transitively requires [u]: [u] is a (transitive) prerequisite. *)
Inductive reaches (env : db_env) : task -> task -> Prop :=
| reach_direct t u l : requires env t = Some l -> u ∈ l -> reaches env t u
| reach_trans t u v : reaches env t u -> reaches env u v -> reaches env t v.

(** The stage of each task in the pipeline. *)
Definition rank (t : task) : nat :=
  match t with
  | DumpBulkGasToAuxDB => 0
  | GenerateBulk _ | GenerateGas _ => 0
  | SubmitToFW ct _ =>
      if bool_decide (ct = "bulk") || bool_decide (ct = "gas") then 1
      else if bool_decide (ct = "slab") then 3
      else if bool_decide (ct = "slab+adsorbate") then 6 else 0
  | GenerateSurfaces _ => 2
  | DumpSurfacesToAuxDB => 3
  | GenerateSiteMarkers _ => 4
  | GenerateAdslabs _ => 5
  | FingerprintUnrelaxedAdslabs _ => 6
  | CalculateEnergy _ | UpdateEnumerations _ => 7
  | FingerprintRelaxedAdslab _ => 8
  | DumpToLocalDB _ => 9
  | UpdateAllDB _ _ => 10
  end.
End TaskGraph.

(* ===================================================================== *)
(** * Properties *)

Module CleanUpTests.
Import CleanUp.
Example clean_ok :
  _clean_up_aggregated_docs [ {| agg_id := [("mpid", VStr "mp-1")] |} ;
                              {| agg_id := [("mpid", VNone)] |} ] ["mpid"]
  = [[("mpid", VStr "mp-1")]].
Proof. reflexivity. Qed.
Example claimed_ok :
  claimed_clean_up [ {| agg_id := [("a", VInt 1)] |} ;
                     {| agg_id := [("mpid", VStr "mp-1")] |} ] ["mpid"]
  = [[("mpid", VStr "mp-1")]].
Proof. vm_compute. reflexivity. Qed.
End CleanUpTests.

Module CleanUpProps.
Import CleanUp.

(** C8 (code_bug): a payload with the wrong keys makes the loop
    [break]: the payload after it, which has exactly the expected keys
    and no [None], is not returned, although the claim keeps it. *)
Lemma clean_up_wrong_keys_stops_loop :
  _clean_up_aggregated_docs
    [ {| agg_id := [("a", VInt 1)] |}; {| agg_id := [("mpid", VStr "mp-1")] |} ]
    ["mpid"] = []
  /\ claimed_clean_up
    [ {| agg_id := [("a", VInt 1)] |}; {| agg_id := [("mpid", VStr "mp-1")] |} ]
    ["mpid"] = [[("mpid", VStr "mp-1")]].
Proof. split; vm_compute; reflexivity. Qed.
End CleanUpProps.

Module SurfacesProps.
Import Surfaces.

Lemma fold_save_slab mpid miller slabs (l : list slab) acc :
  fold_left (save_slab mpid miller slabs) l acc
  = (acc ++ concat (map (claimed_docs mpid miller slabs) l))%list.
Proof.
  revert acc; induction l as [|s l IH]; intros acc; simpl.
  - by rewrite app_nil_r.
  - rewrite IH. unfold save_slab, claimed_docs, make_tags.
    destruct (z_invertible s); simpl; by rewrite <- !app_assoc.
Qed.

(** C7: [GenerateSurfaces.run] saves, for each generated slab in
    order, one document with [top = True] whose shift is 0 when the slab
    is the only one with its Miller index and the slab's shift
    otherwise, followed, when no symmetry operation has
    [matrix[2][2] == -1], by a document with [top = False] and the same
    shift, mpid and miller. *)
Theorem generate_surfaces_saved_docs mpid miller (slabs : list slab) :
  generate_surfaces_run mpid miller slabs
  = concat (map (claimed_docs mpid miller slabs) slabs).
Proof. unfold generate_surfaces_run. by rewrite fold_save_slab. Qed.
End SurfacesProps.

Module HarvestProps.
Import Harvest.

Lemma get_fw_by_id_found (lp : launchpad) fwid :
  fwid ∈ fw_id <$> lp -> is_Some (get_fw_by_id lp fwid).
Proof.
  unfold get_fw_by_id; induction lp as [|fw lp IH]; simpl; intros Hin.
  - by apply elem_of_nil in Hin.
  - destruct (Z.eqb_spec (fw_id fw) fwid) as [Heq|Hne]; [by eexists|].
    apply IH. apply elem_of_cons in Hin as [->|Hin]; [congruence|done].
Qed.

Lemma get_fw_ids_sub (lp : launchpad) st ct fwid :
  fwid ∈ get_fw_ids lp st ct -> fwid ∈ fw_id <$> lp.
Proof.
  unfold get_fw_ids. intros Hin.
  apply list_elem_of_fmap in Hin as (fw & -> & Hfw).
  apply list_elem_of_filter in Hfw as [_ Hfw].
  apply list_elem_of_fmap. by exists fw.
Qed.

Lemma dump_loop_spec lp fws (todo : list Z) (db : aux_db) :
  (forall fwid, fwid ∈ todo -> is_Some (get_fw_by_id lp fwid)) ->
  exists new, dump_loop lp fws todo db = Some (db ++ new)%list
    /\ omap doc_fwid new = filter (fun fwid => fwid ∉ fws) todo.
Proof.
  revert db; induction todo as [|fwid todo IH]; intros db Hfound; simpl.
  - exists []. by rewrite app_nil_r.
  - assert (Hrest : forall x, x ∈ todo -> is_Some (get_fw_by_id lp x))
      by (intros x Hx; apply Hfound; by apply elem_of_cons; right).
    rewrite filter_cons.
    case_bool_decide as Hin.
    + destruct (IH db Hrest) as (new & -> & Hnew). exists new.
      rewrite decide_False; [done|]. by intros [].
    + destruct (Hfound fwid (list_elem_of_here _ _)) as [fw ->].
      destruct (IH (db ++ [make_doc fw fwid])%list Hrest) as (new & -> & Hnew).
      exists (make_doc fw fwid :: new). rewrite <- app_assoc. split; [done|].
      rewrite decide_True; [|done]. rewrite <- Hnew. reflexivity.
Qed.

Lemma dump_loop_all_present lp fws (todo : list Z) (db : aux_db) :
  (forall fwid, fwid ∈ todo -> fwid ∈ fws) -> dump_loop lp fws todo db = Some db.
Proof.
  induction todo as [|fwid todo IH]; intros Hall; simpl; [done|].
  rewrite bool_decide_true; [|apply Hall; apply list_elem_of_here].
  apply IH. intros x Hx. apply Hall. by apply elem_of_cons; right.
Qed.

Lemma NoDup_map_inj_in {A B} (f : A -> B) (l : list A) x y :
  NoDup (f <$> l) -> x ∈ l -> y ∈ l -> f x = f y -> x = y.
Proof.
  induction l as [|z l IH]; simpl; intros Hnd Hx Hy Hxy.
  - by apply elem_of_nil in Hx.
  - apply NoDup_cons in Hnd as [Hz Hnd].
    apply elem_of_cons in Hx as [->|Hx]; apply elem_of_cons in Hy as [->|Hy];
      [done| | |by apply IH].
    + exfalso. apply Hz. rewrite Hxy. apply list_elem_of_fmap. by exists y.
    + exfalso. apply Hz. rewrite <- Hxy. apply list_elem_of_fmap. by exists x.
Qed.

Lemma NoDup_get_fw_ids (lp : launchpad) st ct :
  NoDup (fw_id <$> lp) -> NoDup (get_fw_ids lp st ct).
Proof.
  intros Hnd. unfold get_fw_ids.
  eapply sublist_NoDup; [exact Hnd|].
  apply fmap_sublist, sublist_filter.
Qed.

Lemma NoDup_fws_cmpltd (lp : launchpad) :
  NoDup (fw_id <$> lp) -> NoDup (fws_cmpltd lp).
Proof.
  intros Hnd. unfold fws_cmpltd. apply NoDup_app.
  split; [by apply NoDup_get_fw_ids|]. split; [|by apply NoDup_get_fw_ids].
  intros fwid H1 H2. unfold get_fw_ids in H1, H2.
  apply list_elem_of_fmap in H1 as (fw1 & Hid1 & H1).
  apply list_elem_of_fmap in H2 as (fw2 & Hid2 & H2).
  apply list_elem_of_filter in H1 as [Hp1 H1].
  apply list_elem_of_filter in H2 as [Hp2 H2].
  assert (fw1 = fw2) as <- by (eapply NoDup_map_inj_in; eauto; congruence).
  apply Is_true_eq_true in Hp1, Hp2.
  apply andb_prop in Hp1 as [_ Hc1]. apply andb_prop in Hp2 as [_ Hc2].
  apply bool_decide_eq_true in Hc1, Hc2. congruence.
Qed.

Lemma existing_fwids_app (db new : aux_db) :
  existing_fwids (db ++ new)%list = (existing_fwids db ++ omap doc_fwid new)%list.
Proof. unfold existing_fwids. apply omap_app. Qed.

(** C6: with the fwids of the launchpad unique, [DumpBulkGasToAuxDB.run]
    appends to the Auxiliary DB one document for each completed unit-cell
    or gas-phase firework whose fwid the DB does not yet hold (and only
    those), no fwid twice, and running it again writes nothing. *)
Theorem dump_bulk_gas_idempotent (lp : launchpad) (db : aux_db) :
  NoDup (fw_id <$> lp) ->
  exists new,
    dump_bulk_gas_run lp db = Some (db ++ new)%list
    /\ omap doc_fwid new
       = filter (fun fwid => fwid ∉ existing_fwids db) (fws_cmpltd lp)
    /\ NoDup (omap doc_fwid new)
    /\ dump_bulk_gas_run lp (db ++ new)%list = Some (db ++ new)%list.
Proof.
  intros Hnd.
  assert (Hfound : forall fwid, fwid ∈ fws_cmpltd lp -> is_Some (get_fw_by_id lp fwid)).
  { intros fwid Hin. apply get_fw_by_id_found. unfold fws_cmpltd in Hin.
    apply elem_of_app in Hin as [Hin|Hin]; eapply get_fw_ids_sub; exact Hin. }
  destruct (dump_loop_spec lp (existing_fwids db) (fws_cmpltd lp) db Hfound)
    as (new & Hrun & Hnew).
  exists new. split; [exact Hrun|]. split; [exact Hnew|]. split.
  - rewrite Hnew. apply NoDup_filter. by apply NoDup_fws_cmpltd.
  - unfold dump_bulk_gas_run. apply dump_loop_all_present.
    intros fwid Hin. rewrite existing_fwids_app, elem_of_app.
    destruct (decide (fwid ∈ existing_fwids db)) as [|Hn]; [by left|right].
    rewrite Hnew. by apply list_elem_of_filter.
Qed.

Lemma dump_bulk_gas_idempotent_witness :
  NoDup (fw_id <$> [ {| fw_id := 1; fw_state := "COMPLETED";
                        fw_calculation_type := "unit cell optimization";
                        fw_launch_dir := "/a" |} ])
  /\ exists new,
    dump_bulk_gas_run
      [ {| fw_id := 1; fw_state := "COMPLETED";
           fw_calculation_type := "unit cell optimization"; fw_launch_dir := "/a" |} ]
      [] = Some ([] ++ new)%list
    /\ omap doc_fwid new
       = filter (fun fwid => fwid ∉ existing_fwids [])
           (fws_cmpltd [ {| fw_id := 1; fw_state := "COMPLETED";
                            fw_calculation_type := "unit cell optimization";
                            fw_launch_dir := "/a" |} ])
    /\ NoDup (omap doc_fwid new)
    /\ dump_bulk_gas_run
         [ {| fw_id := 1; fw_state := "COMPLETED";
              fw_calculation_type := "unit cell optimization"; fw_launch_dir := "/a" |} ]
         ([] ++ new)%list = Some ([] ++ new)%list.
Proof.
  assert (H : NoDup (fw_id <$> [ {| fw_id := 1; fw_state := "COMPLETED";
                        fw_calculation_type := "unit cell optimization";
                        fw_launch_dir := "/a" |} ])).
  { simpl. apply NoDup_singleton. }
  split; [exact H|]. apply (dump_bulk_gas_idempotent _ [] H).
Defined.
End HarvestProps.

Module EnergyProps.
Import Energy.
Local Open Scope Q_scope.

Lemma fold_left_Qmin_compat (r : list Q) a b :
  a == b -> fold_left Qmin r a == fold_left Qmin r b.
Proof.
  revert a b; induction r as [|x r IH]; intros a b Hab; simpl; [exact Hab|].
  apply IH. apply Q.min_compat; [exact Hab|reflexivity].
Qed.

(** [np.argmin] picks an element equal to the minimum. *)
Lemma argmin_from_spec (full l : list Q) (i best : nat) (bestv : Q) :
  nth_error full best = Some bestv ->
  (forall j x, nth_error l j = Some x -> nth_error full (i + j)%nat = Some x) ->
  exists v, nth_error full (argmin_from l i best bestv) = Some v
            /\ v == fold_left Qmin l bestv.
Proof.
  revert i best bestv; induction l as [|x r IH]; intros i best bestv Hb Hl; simpl.
  - exists bestv. split; [exact Hb|reflexivity].
  - assert (Hr : forall j y, nth_error r j = Some y ->
                   nth_error full (S i + j)%nat = Some y).
    { intros j y Hj. rewrite <- (Hl (S j) y Hj). f_equal. lia. }
    destruct (Qlt_le_dec x bestv) as [Hlt|Hle].
    + assert (Hx : nth_error full i = Some x)
        by (rewrite <- (Hl 0%nat x eq_refl); f_equal; lia).
      destruct (IH (S i) i x Hx Hr) as (v & Hv & Heq).
      exists v. split; [exact Hv|]. rewrite Heq.
      apply fold_left_Qmin_compat. symmetry. apply Q.min_r. apply Qlt_le_weak, Hlt.
    + destruct (IH (S i) best bestv Hb Hr) as (v & Hv & Heq).
      exists v. split; [exact Hv|]. rewrite Heq.
      apply fold_left_Qmin_compat. symmetry. apply Q.min_l. exact Hle.
Qed.

Lemma np_argmin_min (x : Q) (r : list Q) :
  exists k v, np_argmin (x :: r) = Some k /\ nth_error (x :: r) k = Some v
              /\ v == fold_left Qmin r x.
Proof.
  destruct (argmin_from_spec (x :: r) r 1 0 x eq_refl) as (v & Hv & Heq).
  { intros j y Hj. exact Hj. }
  exists (argmin_from r 1 0 x), v. split; [reflexivity|]. split; assumption.
Qed.

Lemma fold_right_Qmin_shift (r : list Q) a b :
  fold_right Qmin (Qmin a b) r == Qmin b (fold_right Qmin a r).
Proof.
  induction r as [|y r IH]; simpl.
  - apply Q.min_comm.
  - rewrite IH. rewrite Q.min_assoc, (Q.min_comm y b), <- Q.min_assoc. reflexivity.
Qed.

Lemma fold_left_right_Qmin (r : list Q) x :
  fold_left Qmin r x == fold_right Qmin x r.
Proof.
  revert x; induction r as [|y r IH]; intros x; simpl; [reflexivity|].
  rewrite IH. apply fold_right_Qmin_shift.
Qed.

Lemma fold_left_Qplus_acc (l : list Q) a :
  fold_left Qplus l a == a + fold_right Qplus 0 l.
Proof.
  revert a; induction l as [|y l IH]; intros a; simpl.
  - symmetry. apply Qplus_0_r.
  - rewrite IH. symmetry. apply Qplus_assoc.
Qed.

Lemma fold_right_Qplus_init (l : list Q) t :
  fold_right Qplus t l == fold_right Qplus 0 l + t.
Proof.
  induction l as [|y l IH]; simpl.
  - symmetry. apply Qplus_0_l.
  - rewrite IH. apply Qplus_assoc.
Qed.

Section WithAds.
Variable ads_dict : string -> option (list string).

Definition chon (s : string) : Prop := s = "H" \/ s = "O" \/ s = "C".

Lemma mono_atom_energies_ref g s :
  chon s -> mono_atom_energies g s = Some (ref_energy g s).
Proof.
  unfold chon, mono_atom_energies, ref_energy, ref_H, ref_O, ref_C.
  intros [ -> | [ -> | -> ] ]; reflexivity.
Qed.

Lemma map_opt_mono g (syms : list string) :
  (forall s, s ∈ syms -> chon s) ->
  map_opt (mono_atom_energies g) syms = Some (map (ref_energy g) syms).
Proof.
  induction syms as [|s syms IH]; intros Hs; simpl; [reflexivity|].
  rewrite (mono_atom_energies_ref g s) by (apply Hs; apply list_elem_of_here).
  rewrite IH; [reflexivity|]. intros s' Hs'. apply Hs. by apply elem_of_cons; right.
Qed.

Lemma gas_energy_loop_spec g (ads : list string) acc :
  (forall n, n ∈ ads -> exists syms, ads_dict n = Some syms
                          /\ forall s, s ∈ syms -> chon s) ->
  exists e, gas_energy_loop ads_dict g ads acc = Some e
    /\ e == acc + fold_right Qplus 0 (map (ref_energy g) (adsorbate_atoms ads_dict ads)).
Proof.
  revert acc; induction ads as [|n ads IH]; intros acc Hads; simpl.
  - exists acc. split; [reflexivity|]. symmetry. apply Qplus_0_r.
  - destruct (Hads n (list_elem_of_here _ _)) as (syms & Hd & Hsyms).
    rewrite Hd, (map_opt_mono g syms Hsyms).
    destruct (IH (acc + np_sum (map (ref_energy g) syms))) as (e & He & Heq).
    { intros n' Hn'. apply Hads. by apply elem_of_cons; right. }
    exists e. split; [exact He|]. rewrite Heq.
    assert (Hat : adsorbate_atoms ads_dict (n :: ads)
                  = (syms ++ adsorbate_atoms ads_dict ads)%list)
      by (unfold adsorbate_atoms; simpl; rewrite Hd; reflexivity).
    unfold np_sum. rewrite fold_left_Qplus_acc, Hat.
    rewrite map_app, fold_right_app.
    rewrite (fold_right_Qplus_init _
               (fold_right Qplus 0 (map (ref_energy g) (adsorbate_atoms ads_dict ads)))).
    ring.
Qed.
End WithAds.

(** C5: when both candidate lists are non-empty and every adsorbate is
    made of H, O and C atoms, [CalculateEnergy.run] computes
    dE = min E(slab+ads) - min E(slab) - sum of the per-atom references
    H = E(H2)/2, O = E(H2O) - E(H2), C = E(CO) - (E(H2O) - E(H2)). *)
Theorem calculate_energy_stoichiometric (ads_dict : string -> option (list string))
  (g : gas_energies) (ea eb : Q) (ra rb : list Q) (adsorbates : list string) :
  (forall n, n ∈ adsorbates -> exists syms, ads_dict n = Some syms
                               /\ forall s, s ∈ syms -> chon s) ->
  exists dE, calculate_energy_dE ads_dict g (ea :: ra) (eb :: rb) adsorbates = Some dE
    /\ dE == claimed_dE ads_dict g ea eb ra rb adsorbates.
Proof.
  intros Hads. unfold calculate_energy_dE.
  destruct (np_argmin_min ea ra) as (k & v & -> & Hv & Hvmin). rewrite Hv.
  destruct (np_argmin_min eb rb) as (k' & v' & -> & _ & _).
  destruct (gas_energy_loop_spec ads_dict g adsorbates 0 Hads) as (e & He & Heq).
  simpl np_min. rewrite He.
  eexists. split; [reflexivity|].
  unfold claimed_dE, list_min.
  rewrite Hvmin, Heq, !fold_left_right_Qmin, Qplus_0_l. reflexivity.
Qed.

Lemma calculate_energy_stoichiometric_witness :
  exists dE,
    calculate_energy_dE (fun n => if bool_decide (n = "CO") then Some ["C"; "O"] else None)
      {| E_CO := -15; E_H2 := -7; E_H2O := -14 |} (-100 :: [-101]) (-90 :: [])
      ["CO"] = Some dE
    /\ dE == claimed_dE (fun n => if bool_decide (n = "CO") then Some ["C"; "O"] else None)
              {| E_CO := -15; E_H2 := -7; E_H2O := -14 |} (-100) (-90) [-101] []
              ["CO"].
Proof.
  apply calculate_energy_stoichiometric.
  intros n Hn. apply list_elem_of_singleton in Hn as ->.
  exists ["C"; "O"]. split; [reflexivity|].
  intros s Hs. unfold chon.
  apply elem_of_cons in Hs as [->|Hs]; [by right; right|].
  apply list_elem_of_singleton in Hs as ->. by right; left.
Defined.
End EnergyProps.

Module TaskGraphProps.
Import Tasks TaskGraph.

Lemma update_all_loop_tasks writeDB max_processes fwids i rows u :
  u ∈ update_all_loop writeDB max_processes fwids i rows ->
  (exists p, u = DumpToLocalDB p) \/ (exists p, u = FingerprintRelaxedAdslab p).
Proof.
  revert i; induction rows as [|row rows IH]; intros i Hu; simpl in Hu.
  - by apply elem_of_nil in Hu.
  - destruct (Z.eqb (i + 1) max_processes); [by apply elem_of_nil in Hu|].
    match type of Hu with context [if ?c then _ else _] => destruct c end;
      [|by eapply IH].
    apply elem_of_cons in Hu as [->|Hu]; [|by eapply IH].
    destruct writeDB; [left|right]; eauto.
Qed.

Ltac rank_cases :=
  repeat match goal with
  | H : match ?x with _ => _ end = Some _ |- _ =>
      let E := fresh "E" in destruct x eqn:E; try discriminate H
  | H : (if ?b then _ else _) = Some _ |- _ =>
      let E := fresh "E" in destruct b eqn:E; try discriminate H
  | H : Some _ = Some _ |- _ => injection H as <-
  | H : _ ∈ _ :: _ |- _ =>
      let Heq := fresh "Heq" in
      apply elem_of_cons in H as [Heq|H]; [try discriminate Heq; try subst|]
  | H : _ ∈ [] |- _ => apply elem_of_nil in H; contradiction
  end.

(** Every direct prerequisite belongs to an earlier stage. *)
Lemma requires_rank env t l u :
  requires env t = Some l -> u ∈ l -> rank u < rank t.
Proof.
  intros Hreq Hu.
  destruct t; simpl in Hreq.
  - injection Hreq as <-. by apply elem_of_nil in Hu.
  - injection Hreq as <-. apply list_elem_of_In, in_map_iff in Hu as (p & <- & _).
    simpl. lia.
  - injection Hreq as <-. apply elem_of_cons in Hu as [->|Hu]; [simpl; lia|].
    apply update_all_loop_tasks in Hu as [[p ->]|[p ->]]; simpl; lia.
  - injection Hreq as <-. by apply elem_of_nil in Hu.
  - injection Hreq as <-. by apply elem_of_nil in Hu.
  - rank_cases; simpl; lia.
  - rank_cases; simpl; lia.
  - rank_cases; simpl; lia.
  - rank_cases; try (simpl; lia).
    apply list_elem_of_In, in_map_iff in Hu as (q & <- & _). simpl. lia.
  - rank_cases; simpl; lia.
  - rank_cases; simpl; lia.
  - rank_cases; simpl; lia.
  - rank_cases; simpl; lia.
  - unfold submit_to_fw_requires in Hreq.
    repeat case_bool_decide; subst; rank_cases; simpl; lia.
Qed.

Lemma reaches_rank env t u : reaches env t u -> rank u < rank t.
Proof.
  induction 1 as [t u l Hreq Hu|t u v _ IH1 _ IH2].
  - by eapply requires_rank.
  - lia.
Qed.

(** C4: for every database state read by the dump tasks, the relation
    "is a transitive prerequisite of" generated by the [requires]
    methods is well founded (so unfolding [requires] terminates) and no
    task transitively requires itself. *)
Theorem requires_graph_acyclic (env : db_env) :
  well_founded (fun u t => reaches env t u)
  /\ forall t, ~ reaches env t t.
Proof.
  split.
  - apply (wf_incl _ _ (ltof task rank)); [|apply well_founded_ltof].
    intros u t H. unfold ltof. by apply (reaches_rank env).
  - intros t H. apply reaches_rank in H. lia.
Qed.

Lemma rank_le_10 t : rank t <= 10.
Proof. destruct t; simpl; repeat case_match; lia. Qed.

Lemma nothing_requires_update_all env t w m : ~ reaches env t (UpdateAllDB w m).
Proof.
  intros H. apply reaches_rank in H. pose proof (rank_le_10 t). simpl in H. lia.
Qed.

Lemma harvest_only_under_update_all env t u :
  reaches env t u -> u = DumpBulkGasToAuxDB \/ u = DumpSurfacesToAuxDB ->
  exists w m, t = UpdateAllDB w m.
Proof.
  induction 1 as [t u l Hreq Hin|t u v H1 _ _ IH2]; intros Hu.
  - destruct Hu as [->| ->]; destruct t; simpl in Hreq; rank_cases; eauto;
      try (apply list_elem_of_In, in_map_iff in Hin as (p & ? & _); discriminate);
      try (apply update_all_loop_tasks in Hin as [[? ?]|[? ?]]; discriminate);
      unfold submit_to_fw_requires in Hreq;
      repeat case_bool_decide; rank_cases.
  - destruct (IH2 Hu) as (w & m & ->). by apply nothing_requires_update_all in H1.
Qed.

Definition env0 : db_env :=
  {| env_missing_shift_surfaces := []; env_rows := []; env_local_fwids := [] |}.

Definition p0 : json :=
  JDict [("bulk", JDict [("mpid", JStr "mp-30")]);
         ("slab", JDict [("miller", JList [JInt 1; JInt 1; JInt 1])]);
         ("gas", JDict []);
         ("adsorption", JDict [("adsorbates", JList [])])].

(** C1 (counterexample): [FingerprintRelaxedAdslab] is not a transitive
    prerequisite of [CalculateEnergy], even for a complete parameter
    set: it is the other way round, [FingerprintRelaxedAdslab.requires]
    lists [CalculateEnergy]. *)
Lemma fingerprint_not_prerequisite_of_energy :
  reaches env0 (FingerprintRelaxedAdslab p0) (CalculateEnergy p0)
  /\ ~ reaches env0 (CalculateEnergy p0) (FingerprintRelaxedAdslab p0).
Proof.
  split.
  - eapply reach_direct; [reflexivity|]. apply elem_of_cons; by left.
  - intros H. apply reaches_rank in H. simpl in H. lia.
Qed.

(** C1 (amended): for every parameter set with a ['bulk'] entry and a
    dictionary ['adsorption'] entry, [CalculateEnergy] is a direct
    prerequisite of [FingerprintRelaxedAdslab] (which also directly
    requires a slab+adsorbate submission), both are direct prerequisites
    of [DumpToLocalDB], and, with a dictionary ['gas'] entry,
    [CalculateEnergy] directly requires the slab+adsorbate submission of
    its parameters; every submission directly requires the generation of
    its structure; [FingerprintRelaxedAdslab] is never a transitive
    prerequisite of [CalculateEnergy]; no task other than the
    [UpdateAllDB] wrapper transitively requires one of the two harvesting
    tasks. *)
Theorem energy_before_fingerprint_before_dump env p
  (Hads : is_Some (set_nested p "adsorption" "adsorbates" no_adsorbates))
  (Hbulk : is_Some (getitem p "bulk")) :
  (exists l, requires env (FingerprintRelaxedAdslab p) = Some l /\ CalculateEnergy p ∈ l
             /\ exists q, SubmitToFW "slab+adsorbate" q ∈ l)
  /\ (exists l, requires env (DumpToLocalDB p) = Some l /\ CalculateEnergy p ∈ l
               /\ FingerprintRelaxedAdslab p ∈ l)
  /\ (forall g, getitem p "gas" = Some (JDict g) ->
       exists l, requires env (CalculateEnergy p) = Some l /\ SubmitToFW "slab+adsorbate" p ∈ l)
  /\ (forall q, requires env (SubmitToFW "bulk" q) = Some [GenerateBulk q]
               /\ requires env (SubmitToFW "gas" q) = Some [GenerateGas q]
               /\ requires env (SubmitToFW "slab" q) = Some [GenerateSurfaces q]
               /\ requires env (SubmitToFW "slab+adsorbate" q) = Some [GenerateAdslabs q])
  /\ ~ reaches env (CalculateEnergy p) (FingerprintRelaxedAdslab p)
  /\ (forall t, reaches env t DumpBulkGasToAuxDB \/ reaches env t DumpSurfacesToAuxDB ->
      exists w m, t = UpdateAllDB w m).
Proof.
  destruct Hads as [param Hparam]. destruct Hbulk as [b Hb].
  split; [|split; [|split; [|split; [|split]]]].
  - eexists; split; [simpl; rewrite Hparam; reflexivity|].
    split; [apply elem_of_cons; by left|].
    exists param. apply elem_of_cons; right; apply elem_of_cons; by left.
  - eexists; split; [simpl; unfold bulk_only; rewrite Hb; reflexivity|].
    split; [apply elem_of_cons; by left|].
    apply elem_of_cons; right; apply elem_of_cons; by left.
  - intros g Hg. eexists; split.
    + simpl. rewrite Hparam, Hg. unfold map_opt_gas. simpl. reflexivity.
    + apply elem_of_cons; by left.
  - intros q. repeat split.
  - intros H. apply reaches_rank in H. simpl in H. lia.
  - intros t [H|H]; eapply harvest_only_under_update_all; eauto.
Qed.

Lemma energy_before_fingerprint_before_dump_witness :
  is_Some (set_nested p0 "adsorption" "adsorbates" no_adsorbates)
  /\ is_Some (getitem p0 "bulk")
  /\ exists l, requires env0 (CalculateEnergy p0) = Some l
               /\ SubmitToFW "slab+adsorbate" p0 ∈ l.
Proof.
  assert (H1 : is_Some (set_nested p0 "adsorption" "adsorbates" no_adsorbates))
    by (vm_compute; eexists; reflexivity).
  assert (H2 : is_Some (getitem p0 "bulk")) by (vm_compute; eexists; reflexivity).
  split; [exact H1|split; [exact H2|]].
  exact (proj1 (proj2 (proj2 (energy_before_fingerprint_before_dump env0 p0 H1 H2))) []
           ltac:(vm_compute; reflexivity)).
Defined.
End TaskGraphProps.

Module SchedulerProps.
Import Tasks Scheduler.

Lemma sched_step_incomplete task_id fs t fs' f :
  sched_step task_id fs t fs' -> output task_id t = Some f -> f ∉ fs.
Proof.
  intros [fs0 t0 fs1 _ Hnc _|fs0 fs1 _] Hout; [|discriminate].
  intros Hin. apply Hnc. unfold complete. by rewrite Hout.
Qed.

Lemma sched_step_mono task_id fs t fs' :
  sched_step task_id fs t fs' -> fs ⊆ fs'.
Proof.
  intros [fs0 t0 fs1 _ _ (w & _ & ->)|fs0 fs1 (w & _ & ->)];
    intros x Hx; apply elem_of_app; by left.
Qed.

(** C3: along every sequence of runs, each [run] starts only when the
    task's output file is absent, and an output file that exists at
    some point is never the output of a task run afterwards. *)
Theorem completed_work_skipped task_id fs0 log fs :
  exec task_id fs0 log fs ->
  Forall (fun '(st, t) => forall f, output task_id t = Some f -> f ∉ st) log
  /\ (forall f, f ∈ fs0 -> Forall (fun '(_, t) => output task_id t <> Some f) log).
Proof.
  induction 1 as [fs1|fs1 t fs' log fs'' Hstep _ [IH1 IH2]].
  - split; [constructor|intros; constructor].
  - split.
    + constructor; [|exact IH1].
      intros f Hout. by eapply sched_step_incomplete.
    + intros f Hf. constructor.
      * intros Hout. by eapply (sched_step_incomplete task_id fs1 t fs' f).
      * apply IH2. by eapply sched_step_mono.
Qed.

Definition tid0 (t : task) : string :=
  match t with GenerateBulk _ => "GenerateBulk_mp_30" | _ => "other" end.

Definition t0 : task := GenerateBulk (JDict [("bulk", JDict [("mpid", JStr "mp-30")])]).

Lemma completed_work_skipped_witness :
  exec tid0 [] [([], t0); ([pickle_path tid0 t0], DumpBulkGasToAuxDB)]
    [pickle_path tid0 t0]
  /\ Forall (fun '(st, t) => forall f, output tid0 t = Some f -> f ∉ st)
       [([], t0); ([pickle_path tid0 t0], DumpBulkGasToAuxDB)].
Proof.
  assert (He : exec tid0 [] [([], t0); ([pickle_path tid0 t0], DumpBulkGasToAuxDB)]
                 [pickle_path tid0 t0]).
  { eapply exec_cons.
    - apply step_worker.
      + reflexivity.
      + unfold complete; simpl. intros H. by apply elem_of_nil in H.
      + exists [pickle_path tid0 t0]. split; reflexivity.
    - eapply exec_cons; [|apply exec_nil].
      apply step_update_all_db. exists []. split.
      + intros x Hx; by apply elem_of_nil in Hx.
      + reflexivity. }
  split; [exact He|].
  exact (proj1 (completed_work_skipped tid0 _ _ _ He)).
Defined.
End SchedulerProps.

Module HashingProps.
Import Hashing.

Lemma StronglySorted_filter {A} (R : relation A) (P : A -> Prop) `{!forall x, Decision (P x)}
  (l : list A) : StronglySorted R l -> StronglySorted R (filter P l).
Proof.
  induction 1 as [|x l _ IH HF]; [constructor|].
  rewrite filter_cons. case_decide; [|exact IH].
  constructor; [exact IH|].
  apply Forall_forall. intros y Hy. apply list_elem_of_filter in Hy as [_ Hy].
  by apply (proj1 (Forall_forall _ _) HF).
Qed.

Section Floats.
Variable F : Type.
Variable py_round2 : F -> F.
Variable str_float : F -> string.

Lemma doc_get_None (d : hdoc F) k : doc_get F d k = None <-> k ∉ map fst d.
Proof.
  induction d as [|[k' v] d IH]; simpl.
  - split; [intros _ H; by apply elem_of_nil in H|done].
  - unfold doc_get in *. simpl. case_bool_decide as Hk; simpl.
    + split; [discriminate|]. intros H. exfalso. apply H. subst. apply elem_of_cons; by left.
    + rewrite IH. rewrite elem_of_cons. naive_solver.
Qed.

Lemma hash_fold_filter (d : hdoc F) ign ks s :
  fold_left (hash_step F py_round2 str_float d ign) ks s
  = fold_left (hash_step F py_round2 str_float d ign) (filter (fun k => k ∉ ign) ks) s.
Proof.
  revert s; induction ks as [|k ks IH]; intros s; [reflexivity|].
  rewrite filter_cons. simpl. case_decide as Hk.
  - simpl. apply IH.
  - unfold hash_step at 2. rewrite bool_decide_true; [apply IH|].
    destruct (decide (k ∈ ign)); [done|contradiction].
Qed.

Lemma hash_fold_agree (d1 d2 : hdoc F) ign ks s :
  (forall k s, k ∈ ks -> hash_step F py_round2 str_float d1 ign s k
                        = hash_step F py_round2 str_float d2 ign s k) ->
  fold_left (hash_step F py_round2 str_float d1 ign) ks s
  = fold_left (hash_step F py_round2 str_float d2 ign) ks s.
Proof.
  revert s; induction ks as [|k ks IH]; intros s Hks; [reflexivity|].
  simpl. rewrite (Hks k s) by (apply elem_of_cons; by left).
  apply IH. intros k' s' Hk'. apply Hks. apply elem_of_cons; by right.
Qed.

Lemma values_agree_str v1 v2 :
  values_agree F py_round2 v1 v2 ->
  py_str F str_float (clean_value F py_round2 v1)
  = py_str F str_float (clean_value F py_round2 v2).
Proof.
  destruct v1, v2; simpl; intros H; try discriminate H;
    first [inversion H; subst; reflexivity | congruence].
Qed.

Lemma hash_step_agree (d1 d2 : hdoc F) ign k s :
  docs_agree_outside F py_round2 ign d1 d2 ->
  hash_step F py_round2 str_float d1 ign s k = hash_step F py_round2 str_float d2 ign s k.
Proof.
  intros Hag. unfold hash_step. case_bool_decide as Hk; [reflexivity|].
  specialize (Hag k Hk).
  destruct (doc_get F d1 k) as [v1|], (doc_get F d2 k) as [v2|]; try contradiction;
    [|reflexivity].
  by rewrite (values_agree_str v1 v2 Hag).
Qed.

Lemma filtered_keys_elem (d : hdoc F) (ign : list string) k :
  (k ∈ filter (fun k => k ∉ ign) (sorted_keys F d)) <-> (k ∉ ign) /\ doc_get F d k <> None.
Proof.
  rewrite list_elem_of_filter. unfold sorted_keys.
  rewrite (merge_sort_Permutation String.le (map fst d)).
  rewrite doc_get_None. split; intros [H1 H2]; (split; [exact H1|]).
  - intros H; by apply H.
  - destruct (decide (k ∈ map fst d)); [done|contradiction].
Qed.

Lemma filtered_keys_eq (d1 d2 : hdoc F) ign :
  NoDup (map fst d1) -> NoDup (map fst d2) ->
  docs_agree_outside F py_round2 ign d1 d2 ->
  filter (fun k => k ∉ ign) (sorted_keys F d1) = filter (fun k => k ∉ ign) (sorted_keys F d2).
Proof.
  intros Hn1 Hn2 Hag.
  apply (StronglySorted_unique String.le).
  - apply StronglySorted_filter; apply StronglySorted_merge_sort; apply _.
  - apply StronglySorted_filter; apply StronglySorted_merge_sort; apply _.
  - apply NoDup_Permutation.
    + apply NoDup_filter. unfold sorted_keys.
      by rewrite (merge_sort_Permutation String.le (map fst d1)).
    + apply NoDup_filter. unfold sorted_keys.
      by rewrite (merge_sort_Permutation String.le (map fst d2)).
    + intros k. rewrite !filtered_keys_elem.
      split; intros [Hk Hs]; split; try done; specialize (Hag k Hk);
        destruct (doc_get F d1 k), (doc_get F d2 k); done.
Qed.

(** C9: two flat documents (dicts: distinct keys) that agree outside
    [ignore_keys] and ['mongo_id'], floats compared after rounding to two
    decimals, give [_hash_doc] the same pre-hash string, whatever their
    values at the ignored keys and the order of their keys; hence the
    same hash. *)
Theorem hash_doc_insensitive (py_hash : string -> Z) (d1 d2 : hdoc F) ignore_keys
  (Hd1 : NoDup (map fst d1)) (Hd2 : NoDup (map fst d2))
  (Hag : docs_agree_outside F py_round2 (_hash_docs_ignore ignore_keys) d1 d2) :
  _hash_doc_system F py_round2 str_float d1 (_hash_docs_ignore ignore_keys)
  = _hash_doc_system F py_round2 str_float d2 (_hash_docs_ignore ignore_keys)
  /\ _hash_doc F py_round2 str_float py_hash d1 (_hash_docs_ignore ignore_keys)
  = _hash_doc F py_round2 str_float py_hash d2 (_hash_docs_ignore ignore_keys).
Proof.
  assert (Hsys : _hash_doc_system F py_round2 str_float d1 (_hash_docs_ignore ignore_keys)
               = _hash_doc_system F py_round2 str_float d2 (_hash_docs_ignore ignore_keys)).
  { unfold _hash_doc_system.
    rewrite (hash_fold_filter d1), (hash_fold_filter d2).
    rewrite (filtered_keys_eq d1 d2 _ Hd1 Hd2 Hag).
    apply hash_fold_agree. intros k s _. by apply hash_step_agree. }
  split; [exact Hsys|]. unfold _hash_doc. by rewrite Hsys.
Qed.
End Floats.

(** Floats as rationals; [round(x, 2)] as rounding down to hundredths. *)
Definition round2_Q (x : Q) : Q := Qmake (Z.div (Qnum x * 100) (Zpos (Qden x))) 100.
Definition str_Q (x : Q) : string := pretty (Qnum x) ++ "/" ++ pretty (Zpos (Qden x)).
Definition hash_len (s : string) : Z := Z.of_nat (String.length s).

Definition hd1 : hdoc Q := [("mongo_id", HStr "a"); ("energy", HFloat (Qmake 1234 1000))].
Definition hd2 : hdoc Q := [("energy", HFloat (Qmake 1231 1000)); ("mongo_id", HStr "b")].

Lemma hash_doc_insensitive_witness :
  NoDup (map fst hd1) /\ NoDup (map fst hd2)
  /\ docs_agree_outside Q round2_Q (_hash_docs_ignore []) hd1 hd2
  /\ _hash_doc_system Q round2_Q str_Q hd1 (_hash_docs_ignore [])
     = _hash_doc_system Q round2_Q str_Q hd2 (_hash_docs_ignore []).
Proof.
  assert (H1 : NoDup (map fst hd1)).
  { simpl. apply NoDup_cons. split; [|apply NoDup_singleton].
    rewrite list_elem_of_singleton. discriminate. }
  assert (H2 : NoDup (map fst hd2)).
  { simpl. apply NoDup_cons. split; [|apply NoDup_singleton].
    rewrite list_elem_of_singleton. discriminate. }
  assert (H3 : docs_agree_outside Q round2_Q (_hash_docs_ignore []) hd1 hd2).
  { intros k Hk. unfold doc_get. simpl.
    repeat case_bool_decide; subst; simpl; try done.
    exfalso. apply Hk. apply list_elem_of_singleton. reflexivity. }
  split; [exact H1|split; [exact H2|split; [exact H3|]]].
  exact (proj1 (hash_doc_insensitive Q round2_Q str_Q hash_len hd1 hd2 [] H1 H2 H3)).
Defined.
End HashingProps.

Module DefaultsProps.
Import Defaults.

(** [m] leaves every location of [h0] as it is. *)
Definition pres (h0 : heap) {A} (m : M A) : Prop :=
  forall h, h0 ⊆ h -> h0 ⊆ snd (m h).

Lemma pres_apply {A} h0 (m : M A) h : pres h0 m -> h0 ⊆ h -> h0 ⊆ snd (m h).
Proof. intros Hm H. by apply Hm. Qed.

Lemma pres_ret {A} h0 (a : A) : pres h0 (ret a).
Proof. intros h H. exact H. Qed.

Lemma pres_raise {A} h0 : pres h0 (@raise A).
Proof. intros h H. exact H. Qed.

Lemma pres_read h0 l : pres h0 (read l).
Proof. intros h H. unfold read. by destruct (h !! l). Qed.

Lemma pres_alloc h0 d : pres h0 (alloc d).
Proof.
  intros h H. simpl. apply insert_subseteq_r; [|exact H].
  eapply lookup_weaken_None; [|exact H]. apply not_elem_of_dom, is_fresh.
Qed.

Lemma pres_bind {A B} h0 (m : M A) (k : A -> M B) :
  pres h0 m -> (forall a, pres h0 (k a)) -> pres h0 (bind m k).
Proof.
  intros Hm Hk h H. unfold bind. specialize (Hm h H).
  destruct (m h) as [[a|] h']; simpl in *; [by apply Hk|exact Hm].
Qed.

Lemma bind_Some {A B} (m : M A) (k : A -> M B) h a h' :
  m h = (Some a, h') -> bind m k h = k a h'.
Proof. intros E. unfold bind. by rewrite E. Qed.

Lemma bind_None {A B} (m : M A) (k : A -> M B) h h' :
  m h = (None, h') -> bind m k h = (None, h').
Proof. intros E. unfold bind. by rewrite E. Qed.

Lemma pres_write h0 l d : h0 !! l = None -> pres h0 (write l d).
Proof. intros Hl h H. simpl. by apply insert_subseteq_r. Qed.

Lemma pres_setitem h0 obj k v :
  (forall l, obj = VRef l -> h0 !! l = None) -> pres h0 (setitem obj k v).
Proof.
  intros Hl. destruct obj; try apply pres_raise.
  apply pres_bind; [apply pres_read|]. intros d. by apply pres_write, Hl.
Qed.

Lemma pres_getitem h0 obj k : pres h0 (getitem obj k).
Proof.
  destruct obj; try apply pres_raise.
  apply pres_bind; [apply pres_read|]. intros d.
  destruct (dict_get d k); [apply pres_ret|apply pres_raise].
Qed.

Lemma pres_copy_keys h0 settings src keys :
  (forall l, settings = VRef l -> h0 !! l = None) -> pres h0 (copy_keys settings src keys).
Proof.
  intros Hl. induction keys as [|key keys IH]; simpl; [apply pres_ret|].
  apply pres_bind; [apply pres_getitem|]. intros v.
  apply pres_bind; [by apply pres_setitem|]. intros _. exact IH.
Qed.

Lemma pres_copy_items h0 cp items :
  (forall v, pres h0 (cp v)) -> pres h0 (copy_items cp items).
Proof.
  intros Hcp. induction items as [|[k x] items IH]; simpl; [apply pres_ret|].
  apply pres_bind; [apply Hcp|]. intros x'.
  apply pres_bind; [exact IH|]. intros rest'. apply pres_ret.
Qed.

Lemma pres_deepcopy_fuel h0 n v : pres h0 (deepcopy_fuel n v).
Proof.
  revert v; induction n as [|n IH]; intros v; destruct v; simpl;
    try apply pres_ret; try apply pres_raise.
  apply pres_bind; [apply pres_read|]. intros d.
  apply pres_bind; [by apply pres_copy_items|]. intros d'.
  apply pres_bind; [apply pres_alloc|]. intros l'. apply pres_ret.
Qed.

Lemma pres_deepcopy h0 v : pres h0 (deepcopy v).
Proof. intros h H. unfold deepcopy. by apply pres_deepcopy_fuel. Qed.

Lemma pres_refl {A} (m : M A) h : pres h m -> h ⊆ snd (m h).
Proof. intros Hm. by apply Hm. Qed.

(** A deep copy of a dict is a dict at a location that was free. *)
Lemma deepcopy_fuel_fresh n v h l' h' :
  deepcopy_fuel n v h = (Some (VRef l'), h') -> h !! l' = None.
Proof.
  destruct n as [|n]; destruct v as [| | | | | |l]; simpl;
    try (intros E; injection E as E; discriminate E); try discriminate.
  unfold bind at 1, read. destruct (h !! l) as [d|]; [|discriminate].
  destruct (copy_items (deepcopy_fuel n) d h) as [[d'|] h2] eqn:E2.
  - rewrite (bind_Some _ _ _ _ _ E2). simpl. intros E. injection E as <- _.
    assert (Hsub : h ⊆ h2).
    { pose proof (pres_copy_items h (deepcopy_fuel n) d (pres_deepcopy_fuel h n) h
                   ltac:(reflexivity)) as Hs. by rewrite E2 in Hs. }
    eapply lookup_weaken_None; [|exact Hsub]. apply not_elem_of_dom, is_fresh.
  - rewrite (bind_None _ _ _ _ E2). discriminate.
Qed.

Lemma pres_ordered_dict_kwargs h0 explicit settings :
  pres h0 (ordered_dict_kwargs explicit settings).
Proof.
  destruct settings; try apply pres_raise. simpl.
  apply pres_bind; [apply pres_read|]. intros d.
  destruct (existsb _ d); [apply pres_raise|].
  apply pres_bind; [apply pres_alloc|]. intros l'. apply pres_ret.
Qed.

Lemma dict_get_dict_set d k v : dict_get (dict_set d k v) k = Some v.
Proof.
  induction d as [|[k' v'] d IH]; unfold dict_get in *; simpl.
  - by rewrite bool_decide_true.
  - case_bool_decide as Hk; simpl.
    + by rewrite bool_decide_true.
    + rewrite bool_decide_false by done. exact IH.
Qed.

Lemma dict_get_cons_ne k' v' d k :
  k' <> k -> dict_get ((k', v') :: d) k = dict_get d k.
Proof. intros Hk. unfold dict_get. simpl. by rewrite bool_decide_false. Qed.

Lemma dict_get_keys d k : k ∈ map fst d -> exists v, dict_get d k = Some v.
Proof.
  induction d as [|[k' v'] d IH]; intros Hk; simpl in Hk.
  - by apply elem_of_nil in Hk.
  - unfold dict_get in *. simpl. case_bool_decide as E; [by eexists|].
    apply elem_of_cons in Hk as [->|Hk]; [done|by apply IH].
Qed.

Lemma getitem_ok l d k v h :
  h !! l = Some d -> dict_get d k = Some v -> getitem (VRef l) k h = (Some v, h).
Proof. intros Hl Hv. unfold getitem, bind, read. by rewrite Hl, Hv. Qed.

Lemma setitem_ok l d k v h :
  h !! l = Some d -> setitem (VRef l) k v h = (Some tt, <[l := dict_set d k v]> h).
Proof. intros Hl. unfold setitem, bind, read. by rewrite Hl. Qed.

Lemma copy_keys_spec la lb da db keys h :
  h !! la = Some da -> h !! lb = Some db -> la <> lb ->
  (forall k, k ∈ keys -> k ∈ map fst db) ->
  copy_keys (VRef la) (VRef lb) keys h
  = (Some tt, <[la := copy_keys_dict da db keys]> h).
Proof.
  revert da h; induction keys as [|key keys IH]; intros da h Ha Hb Hne Hk;
    cbn [copy_keys].
  - unfold ret. by rewrite (insert_id h la da Ha).
  - destruct (dict_get_keys db key) as [v Hv]; [apply Hk, elem_of_cons; by left|].
    rewrite (bind_Some _ _ _ _ _ (getitem_ok lb db key v h Hb Hv)).
    rewrite (bind_Some _ _ _ _ _ (setitem_ok la da key v h Ha)).
    rewrite (IH (dict_set da key v)).
    + rewrite insert_insert_eq. unfold copy_keys_dict. simpl. by rewrite Hv.
    + apply lookup_insert_eq.
    + rewrite lookup_insert_ne by done. exact Hb.
    + exact Hne.
    + intros k Hk'. apply Hk, elem_of_cons; by right.
Qed.

Section WithVasp.
Variable xc_defaults : positive.

Lemma pres_xc_settings h0 xc : pres h0 (xc_settings xc_defaults xc).
Proof.
  unfold xc_settings. case_bool_decide.
  - apply pres_bind; [apply pres_alloc|]. intros l. apply pres_ret.
  - apply pres_bind; [apply pres_read|]. intros defaults.
    destruct (dict_get defaults xc) as [[| | | | | |src]|]; try apply pres_raise.
    apply pres_bind; [apply pres_read|]. intros d.
    apply pres_bind; [apply pres_alloc|]. intros l. apply pres_ret.
Qed.

Lemma pres_calc_settings h0 xc : pres h0 (calc_settings xc_defaults xc).
Proof.
  intros h H. unfold calc_settings. unfold bind at 1. simpl.
  assert (Hl : h0 !! fresh (dom h) = None).
  { eapply lookup_weaken_None; [|exact H]. apply not_elem_of_dom, is_fresh. }
  eapply pres_apply; [|apply insert_subseteq_r; [exact Hl|exact H]].
  apply pres_bind; [apply pres_xc_settings|]. intros ds.
  apply pres_bind.
  { destruct ds; try apply pres_raise.
    apply pres_bind; [apply pres_read|]. intros d. apply pres_ret. }
  intros keys. apply pres_bind; [|intros _; apply pres_ret].
  apply pres_copy_keys. intros l E. injection E as <-. exact Hl.
Qed.

Lemma pres_resolve_settings h0 settings : pres h0 (resolve_settings xc_defaults settings).
Proof. destruct settings; try apply pres_ret. apply pres_calc_settings. Qed.

Lemma pres_bulk_parameters_rest h0 mpid encut max_atoms settings :
  pres h0 (bulk_parameters_rest mpid encut max_atoms settings).
Proof.
  intros h H. unfold bulk_parameters_rest.
  destruct (deepcopy settings h) as [[s'|] h2] eqn:E.
  - rewrite (bind_Some _ _ _ _ _ E).
    assert (H2 : h0 ⊆ h2).
    { pose proof (pres_deepcopy h0 settings h H) as Hs. by rewrite E in Hs. }
    eapply pres_apply; [|exact H2].
    apply pres_bind.
    + apply pres_setitem. intros l ->.
      eapply lookup_weaken_None; [|exact H].
      exact (deepcopy_fuel_fresh _ _ _ _ _ E).
    + intros _. apply pres_bind; [apply pres_ordered_dict_kwargs|]. intros vs.
      apply pres_bind; [apply pres_alloc|]. intros l. apply pres_ret.
  - rewrite (bind_None _ _ _ _ E).
    pose proof (pres_deepcopy h0 settings h H) as Hs. by rewrite E in Hs.
Qed.

Lemma calc_settings_source_weaken h h' xc ds :
  h ⊆ h' -> calc_settings_source xc_defaults h xc = Some ds ->
  calc_settings_source xc_defaults h' xc = Some ds.
Proof.
  intros Hsub. unfold calc_settings_source. case_bool_decide; [done|].
  destruct (h !! xc_defaults) as [defaults|] eqn:Ed; [|discriminate].
  rewrite (lookup_weaken h h' _ _ Ed Hsub).
  destruct (dict_get defaults xc) as [[]|]; try discriminate.
  intros Hs. exact (lookup_weaken h h' _ _ Hs Hsub).
Qed.

(** What [calc_settings] computes from the dict [xc_settings] copies. *)
Lemma calc_settings_spec h xc ds :
  calc_settings_source xc_defaults h xc = Some ds ->
  result_dict (calc_settings xc_defaults xc h) = Some (calc_settings_dict ds).
Proof.
  intros Hsrc. unfold calc_settings. unfold bind at 1. simpl.
  set (l1 := fresh (dom h)).
  set (h1 := <[l1 := [("encut", VInt 350); ("pp_version", VStr "5.4")]]> h).
  assert (Hl1 : h !! l1 = None) by apply not_elem_of_dom, is_fresh.
  assert (Hxc : exists h2 l2, xc_settings xc_defaults xc h1 = (Some (VRef l2), h2)
                 /\ h2 !! l2 = Some ds /\ h2 !! l1 = h1 !! l1 /\ l2 <> l1).
  { unfold xc_settings, calc_settings_source in *. case_bool_decide.
    - injection Hsrc as <-. simpl. do 2 eexists. split; [reflexivity|].
      assert (Hf : fresh (dom h1) ∉ dom h1) by apply is_fresh.
      assert (Hne : fresh (dom h1) <> l1).
      { intros E. apply Hf. rewrite E. apply elem_of_dom. eexists. apply lookup_insert_eq. }
      split; [apply lookup_insert_eq|]. split; [by rewrite lookup_insert_ne|exact Hne].
    - destruct (h !! xc_defaults) as [defaults|] eqn:Ed; [|discriminate].
      assert (Hd1 : h1 !! xc_defaults = Some defaults).
      { unfold h1. rewrite lookup_insert_ne; [exact Ed|]. intros E. congruence. }
      destruct (dict_get defaults xc) as [[| | | | | |src]|] eqn:Eg; try discriminate.
      assert (Hs1 : h1 !! src = Some ds).
      { unfold h1. rewrite lookup_insert_ne; [exact Hsrc|]. intros E. congruence. }
      unfold bind at 1, read. rewrite Hd1, Eg. unfold bind at 1. rewrite Hs1. simpl.
      do 2 eexists. split; [reflexivity|].
      assert (Hf : fresh (dom h1) ∉ dom h1) by apply is_fresh.
      assert (Hne : fresh (dom h1) <> l1).
      { intros E. apply Hf. rewrite E. apply elem_of_dom. eexists. apply lookup_insert_eq. }
      split; [apply lookup_insert_eq|]. split; [by rewrite lookup_insert_ne|exact Hne]. }
  destruct Hxc as (h2 & l2 & Hx & Hl2 & Hl1' & Hne).
  fold h1. rewrite (bind_Some _ _ _ _ _ Hx).
  assert (Hk : (let! d := read l2 in ret (map fst d)) h2 = (Some (map fst ds), h2))
    by (unfold bind, read; by rewrite Hl2).
  rewrite (bind_Some _ _ _ _ _ Hk).
  rewrite (bind_Some _ _ _ _ _ (copy_keys_spec l1 l2 _ ds (map fst ds) h2
             ltac:(rewrite Hl1'; apply lookup_insert_eq) Hl2 ltac:(congruence)
             ltac:(intros k Hk0; exact Hk0))).
  simpl. rewrite lookup_insert_eq. reflexivity.
Qed.

(** C10: [bulk_parameters] changes no dict that existed before the call,
    neither the settings mapping it is given nor the shared
    [Vasp.xc_defaults], and no dict that [calc_settings] built for it when
    [settings] is a string; the [encut] override is found in the
    [vasp_settings] of the dict it returns; and a later [calc_settings]
    builds the same dict as one made before the call (with the
    [encut = 350] entry unless the vasp defaults set [encut]). *)
Theorem bulk_parameters_no_mutation mpid settings encut max_atoms h r h'
  (Hrun : bulk_parameters xc_defaults mpid settings encut max_atoms h = (r, h')) :
  h ⊆ h'
  /\ (forall s h1, resolve_settings xc_defaults settings h = (Some s, h1) -> h1 ⊆ h')
  /\ (forall l, r = Some (VRef l) ->
        exists d lv dv, h' !! l = Some d /\ dict_get d "vasp_settings" = Some (VRef lv)
                        /\ h' !! lv = Some dv /\ dict_get dv "encut" = Some (VFloat encut))
  /\ (forall xc ds, calc_settings_source xc_defaults h xc = Some ds ->
        result_dict (calc_settings xc_defaults xc h') = Some (calc_settings_dict ds)
        /\ result_dict (calc_settings xc_defaults xc h) = Some (calc_settings_dict ds)).
Proof.
  assert (Hsub : h ⊆ h').
  { assert (Hs : h ⊆ snd (bulk_parameters xc_defaults mpid settings encut max_atoms h))
      by exact (pres_bind h _ _ (pres_resolve_settings h settings)
                  (fun s => pres_bulk_parameters_rest h mpid encut max_atoms s) h
                  ltac:(reflexivity)).
    by rewrite Hrun in Hs. }
  split; [exact Hsub|split; [|split]].
  - intros s h1 E. unfold bulk_parameters in Hrun.
    rewrite (bind_Some _ _ _ _ _ E) in Hrun.
    pose proof (pres_bulk_parameters_rest h1 mpid encut max_atoms s h1 ltac:(reflexivity))
      as Hs. by rewrite Hrun in Hs.
  - intros l ->. unfold bulk_parameters in Hrun.
    destruct (resolve_settings xc_defaults settings h) as [[s|] h1] eqn:E;
      [|by rewrite (bind_None _ _ _ _ E) in Hrun].
    rewrite (bind_Some _ _ _ _ _ E) in Hrun. unfold bulk_parameters_rest in Hrun.
    destruct (deepcopy s h1) as [[s'|] h2] eqn:E2;
      [|by rewrite (bind_None _ _ _ _ E2) in Hrun].
    rewrite (bind_Some _ _ _ _ _ E2) in Hrun.
    destruct s' as [| | | | | |l']; try discriminate Hrun.
    unfold bind at 1, setitem, bind at 1, read in Hrun.
    destruct (h2 !! l') as [d|] eqn:Ed; [|discriminate Hrun].
    unfold write in Hrun. unfold bind at 1, ordered_dict_kwargs, bind at 1, read in Hrun.
    rewrite lookup_insert_eq in Hrun.
    destruct (existsb _ (dict_set d "encut" (VFloat encut))); [discriminate Hrun|].
    simpl in Hrun. injection Hrun as <- <-.
    set (h3 := <[l' := dict_set d "encut" (VFloat encut)]> h2) in *.
    set (lv := fresh (dom h3)).
    set (h4 := <[lv := _]> h3).
    assert (Hne : fresh (dom h4) <> lv).
    { intros E'. apply (is_fresh (dom h4)). rewrite E'. apply elem_of_dom.
      eexists. apply lookup_insert_eq. }
    do 3 eexists. split; [apply lookup_insert_eq|]. split; [reflexivity|].
    split; [rewrite lookup_insert_ne by done; apply lookup_insert_eq|].
    rewrite !dict_get_cons_ne by discriminate. apply dict_get_dict_set.
  - intros xc ds Hsrc. split; [|by apply calc_settings_spec].
    apply calc_settings_spec. by apply (calc_settings_source_weaken h).
Qed.
End WithVasp.

Definition xc_defaults0 : positive := 1.

(** [Vasp.xc_defaults = {'beef-vdw': {'gga': 'BF', 'luse_vdw': True}}] *)
Definition heap0 : heap :=
  <[1%positive := [("beef-vdw", VRef 2)]]>
    (<[2%positive := [("gga", VStr "BF"); ("luse_vdw", VBool true)]]> ∅).

Lemma bulk_parameters_no_mutation_witness :
  bulk_parameters xc_defaults0 "mp-30" (VStr "beef-vdw") 500 50 heap0
  = (fst (bulk_parameters xc_defaults0 "mp-30" (VStr "beef-vdw") 500 50 heap0),
     snd (bulk_parameters xc_defaults0 "mp-30" (VStr "beef-vdw") 500 50 heap0))
  /\ heap0 ⊆ snd (bulk_parameters xc_defaults0 "mp-30" (VStr "beef-vdw") 500 50 heap0).
Proof.
  assert (E : bulk_parameters xc_defaults0 "mp-30" (VStr "beef-vdw") 500 50 heap0
  = (fst (bulk_parameters xc_defaults0 "mp-30" (VStr "beef-vdw") 500 50 heap0),
     snd (bulk_parameters xc_defaults0 "mp-30" (VStr "beef-vdw") 500 50 heap0)))
    by (destruct (bulk_parameters xc_defaults0 "mp-30" (VStr "beef-vdw") 500 50 heap0);
        reflexivity).
  split; [exact E|].
  exact (proj1 (bulk_parameters_no_mutation xc_defaults0 _ _ _ _ _ _ _ E)).
Defined.
End DefaultsProps.

Module CleanUpExtra.
Import CleanUp.

Lemma clean_loop_sound (docs : list doc) ek d :
  d ∈ clean_loop docs ek ->
  d ∈ docs /\ map fst d = ek /\ has_none_value d = false.
Proof.
  induction docs as [|d0 docs IH]; simpl; intros Hd; [by apply elem_of_nil in Hd|].
  unfold keys_differ in Hd.
  destruct (bool_decide (map fst d0 = ek)) eqn:Hk; simpl in Hd;
    [|by apply elem_of_nil in Hd].
  apply bool_decide_eq_true in Hk.
  destruct (has_none_value d0) eqn:Hn.
  - destruct (IH Hd) as (? & ? & ?). split; [by right|done].
  - apply elem_of_cons in Hd as [->|Hd]; [split; [left|]; done|].
    destruct (IH Hd) as (? & ? & ?). split; [by right|done].
Qed.

(** [_clean_up_aggregated_docs] only returns payloads of its input
    documents; each one has exactly the expected keys, in the expected
    order, and no [None] value. *)
Theorem clean_up_output_clean (docs : list agg_doc) (expected_keys : list string) d :
  d ∈ _clean_up_aggregated_docs docs expected_keys ->
  d ∈ map agg_id docs /\ map fst d = expected_keys /\
  Forall (fun kv => snd kv <> VNone) d.
Proof.
  unfold _clean_up_aggregated_docs. intros Hd.
  destruct (clean_loop_sound _ _ _ Hd) as (Hin & Hk & Hn). split; [done|split; [done|]].
  unfold has_none_value in Hn. apply Forall_forall. intros kv Hkv Heq.
  assert (existsb (fun kv => is_none (snd kv)) d = true) as Ht.
  { apply existsb_exists. exists kv. split; [by apply list_elem_of_In|]. by rewrite Heq. }
  congruence.
Qed.

(** The result is fixed by the payloads up to the first one whose keys
    differ from the expected ones: they are kept in order except the ones
    holding a [None], and nothing after that payload is looked at. *)
Theorem clean_up_prefix (docs : list agg_doc) (expected_keys : list string)
  (ps1 ps2 : list doc) :
  map agg_id docs = (ps1 ++ ps2)%list ->
  Forall (fun d => map fst d = expected_keys) ps1 ->
  (forall d rest, ps2 = d :: rest -> map fst d <> expected_keys) ->
  _clean_up_aggregated_docs docs expected_keys
  = List.filter (fun d => negb (has_none_value d)) ps1.
Proof.
  unfold _clean_up_aggregated_docs. intros -> Hps1 Hps2.
  induction Hps1 as [|d ps1 Hd Hps1 IH]; simpl.
  - destruct ps2 as [|d rest]; simpl; [done|].
    unfold keys_differ. rewrite bool_decide_eq_false_2; [done|]. by eapply Hps2.
  - unfold keys_differ. rewrite bool_decide_eq_true_2 by done. simpl.
    destruct (has_none_value d); simpl; by rewrite IH.
Qed.

Definition agg_docs0 : list agg_doc :=
  [{| agg_id := [("fwid", VInt 1); ("energy", VInt 3)] |};
   {| agg_id := [("fwid", VInt 2); ("energy", VNone)] |};
   {| agg_id := [("energy", VInt 5); ("fwid", VInt 3)] |};
   {| agg_id := [("fwid", VInt 4); ("energy", VInt 6)] |}].

Lemma clean_up_output_clean_witness :
  let d := [("fwid", VInt 1); ("energy", VInt 3)] in
  d ∈ _clean_up_aggregated_docs agg_docs0 ["fwid"; "energy"] /\
  d ∈ map agg_id agg_docs0 /\ map fst d = ["fwid"; "energy"] /\
  Forall (fun kv => snd kv <> VNone) d.
Proof.
  assert (H : [("fwid", VInt 1); ("energy", VInt 3)]
              ∈ _clean_up_aggregated_docs agg_docs0 ["fwid"; "energy"]).
  { vm_compute. left. }
  split; [exact H|]. exact (clean_up_output_clean agg_docs0 _ _ H).
Defined.

Lemma clean_up_prefix_witness :
  _clean_up_aggregated_docs agg_docs0 ["fwid"; "energy"]
  = [[("fwid", VInt 1); ("energy", VInt 3)]].
Proof.
  rewrite (clean_up_prefix agg_docs0 ["fwid"; "energy"]
             [[("fwid", VInt 1); ("energy", VInt 3)]; [("fwid", VInt 2); ("energy", VNone)]]
             [[("energy", VInt 5); ("fwid", VInt 3)]; [("fwid", VInt 4); ("energy", VInt 6)]]).
  - reflexivity.
  - reflexivity.
  - repeat constructor.
  - intros d rest Heq. injection Heq as <- _. discriminate.
Defined.

End CleanUpExtra.

Module ChunksProps.
Import Chunks.

Lemma chunks_fuel_partition {A} (fuel : nat) (size : Z) (l : list A) :
  (1 <= size <= sys_maxsize + 1)%Z -> length l <= fuel ->
  exists cs, chunks_fuel fuel size l = Some cs /\ concat cs = l /\
    Forall (fun c => 1 <= length c <= Z.to_nat size) cs /\
    (forall i c, nth_error cs i = Some c -> S i < length cs -> length c = Z.to_nat size).
Proof.
  intros Hs. revert l; induction fuel as [|fuel IH]; intros l Hl.
  - destruct l; simpl in Hl; [|lia]. exists []. simpl.
    split; [done|split; [done|split; [constructor|]]]. intros i c Hc. destruct i; discriminate.
  - destruct l as [|first rest].
    + exists []. simpl. split; [done|split; [done|split; [constructor|]]].
      intros i c Hc. destruct i; discriminate.
    + simpl in Hl. cbn [chunks_fuel].
      rewrite (proj2 (Z.ltb_ge _ _)) by lia. rewrite (proj2 (Z.ltb_ge _ _)) by lia.
      set (n := Z.to_nat (size - 1)).
      destruct (IH (drop n rest)) as (cs & Hcs & Hcat & Hlen & Hfull);
        [rewrite length_drop; lia|].
      rewrite Hcs. eexists; split; [reflexivity|]. split; [|split].
      * simpl. rewrite Hcat. by rewrite take_drop.
      * constructor; [|done]. simpl. rewrite length_take. lia.
      * intros [|i] c Hc Hi; simpl in Hc, Hi.
        -- injection Hc as <-. simpl. rewrite length_take.
           destruct cs as [|c' cs]; simpl in Hi; [lia|].
           assert (length (drop n rest) <> 0).
           { intros H0. apply length_zero_iff_nil in H0. rewrite H0 in Hcat.
             simpl in Hcat. inversion Hlen as [|? ? Hc' _]; subst.
             destruct c'; simpl in *; [lia|discriminate]. }
           rewrite length_drop in H. lia.
        -- apply (Hfull i c Hc). lia.
Qed.

(** For a chunk size from 1 to [sys.maxsize + 1], [chunks] splits the
    list into consecutive chunks: concatenated they give the list back,
    each has between 1 and [size] elements and every chunk but the last
    has exactly [size] elements. *)
Theorem chunks_partition {A} (size : Z) (l : list A) :
  (1 <= size <= sys_maxsize + 1)%Z ->
  exists cs, chunks size l = Some cs /\ concat cs = l /\
    Forall (fun c => 1 <= length c <= Z.to_nat size) cs /\
    (forall i c, nth_error cs i = Some c -> S i < length cs -> length c = Z.to_nat size).
Proof. intros Hs. by apply chunks_fuel_partition. Qed.

(** For a chunk size below 1, [islice] raises a ValueError as soon as
    there is a first element; an empty list yields no chunk. *)
Theorem chunks_bad_size {A} (size : Z) (l : list A) :
  (size < 1)%Z ->
  chunks size l = match l with [] => Some [] | _ :: _ => None end.
Proof.
  intros Hs. unfold chunks. destruct l as [|x l]; simpl; [done|].
  by rewrite (proj2 (Z.ltb_lt _ _)) by lia.
Qed.

Lemma chunks_partition_witness :
  chunks 2 [1; 2; 3; 4; 5] = Some [[1; 2]; [3; 4]; [5]] /\
  exists cs, chunks 2 [1; 2; 3; 4; 5] = Some cs /\ concat cs = [1; 2; 3; 4; 5] /\
    Forall (fun c => 1 <= length c <= Z.to_nat 2) cs /\
    (forall i c, nth_error cs i = Some c -> S i < length cs -> length c = Z.to_nat 2).
Proof.
  split; [reflexivity|]. apply (chunks_partition 2 [1; 2; 3; 4; 5]).
  unfold sys_maxsize; lia.
Defined.

Lemma chunks_bad_size_witness :
  chunks 0 [1; 2] = None.
Proof. exact (chunks_bad_size 0 [1; 2] ltac:(lia)). Defined.

End ChunksProps.

Module UnsimulatedProps.
Import Hashing Unsimulated HashingProps.

Section Floats.
Variable F : Type.
Variable py_round2 : F -> F.
Variable str_float : F -> string.
Variable py_hash : string -> Z.

Lemma zip_filter_hashes (cat l : list (hdoc F)) (hs : list Z) (f : hdoc F -> Z) :
  (forall d, d ∈ l -> d ∈ cat) ->
  map fst (List.filter
             (fun dh => bool_decide (snd dh ∈ List.filter (fun h => negb (bool_decide (h ∈ hs)))
                                           (map f cat)))
             (combine l (map f l)))
  = List.filter (fun d => negb (bool_decide (f d ∈ hs))) l.
Proof.
  induction l as [|d l IH]; intros Hl; [reflexivity|].
  simpl.
  assert (Hb : bool_decide (f d ∈ List.filter (fun h => negb (bool_decide (h ∈ hs))) (map f cat))
               = negb (bool_decide (f d ∈ hs))).
  { apply eq_bool_prop_intro. rewrite Is_true_true, Is_true_true, bool_decide_eq_true.
    rewrite list_elem_of_In, filter_In, <- list_elem_of_In.
    split; [by intros [_ ?]|]. intros H; split; [|done].
    apply list_elem_of_fmap. exists d. split; [done|]. apply Hl. by left. }
  rewrite Hb. destruct (negb _); simpl;
    rewrite IH by (intros d' Hd'; apply Hl; by right); reflexivity.
Qed.

Lemma get_unsimulated_filter (docs_simulated docs_catalog : list (hdoc F)) :
  get_unsimulated_catalog_docs F py_round2 str_float py_hash docs_simulated docs_catalog
  = List.filter
      (fun d => negb (bool_decide
         (_hash_doc F py_round2 str_float py_hash d (_hash_docs_ignore catalog_ignore)
          ∈ _hash_docs F py_round2 str_float py_hash docs_simulated simulated_ignore)))
      docs_catalog.
Proof.
  unfold get_unsimulated_catalog_docs, _hash_docs at 2.
  by apply zip_filter_hashes.
Qed.

Lemma hash_fold_ignore_ext (d : hdoc F) ign1 ign2 ks s :
  (forall k, k ∈ ks -> (k ∈ ign1 <-> k ∈ ign2)) ->
  fold_left (hash_step F py_round2 str_float d ign1) ks s
  = fold_left (hash_step F py_round2 str_float d ign2) ks s.
Proof.
  revert s; induction ks as [|k ks IH]; intros s Hks; [reflexivity|].
  simpl. rewrite IH by (intros k' Hk'; apply Hks; by right).
  unfold hash_step. f_equal.
  assert (Hk := Hks k ltac:(by left)).
  destruct (bool_decide_reflect (k ∈ ign1)), (bool_decide_reflect (k ∈ ign2)); tauto.
Qed.

Lemma hash_system_agree (d1 d2 : hdoc F) ign :
  NoDup (map fst d1) -> NoDup (map fst d2) ->
  docs_agree_outside F py_round2 ign d1 d2 ->
  _hash_doc_system F py_round2 str_float d1 ign = _hash_doc_system F py_round2 str_float d2 ign.
Proof.
  intros Hd1 Hd2 Hag. unfold _hash_doc_system.
  rewrite (hash_fold_filter F py_round2 str_float d1),
          (hash_fold_filter F py_round2 str_float d2).
  rewrite (filtered_keys_eq F py_round2 d1 d2 _ Hd1 Hd2 Hag).
  apply hash_fold_agree. intros k s _. by apply hash_step_agree.
Qed.

Lemma ignore_lists_differ k :
  k ∉ ["energy"; "adsorbates"; "adslab_calculation_date"] ->
  (k ∈ _hash_docs_ignore simulated_ignore <-> k ∈ _hash_docs_ignore catalog_ignore).
Proof.
  unfold _hash_docs_ignore, simulated_ignore, catalog_ignore. simpl.
  rewrite !elem_of_cons, !elem_of_nil. tauto.
Qed.

(** [get_unsimulated_catalog_docs] keeps, in their order, the catalog
    documents whose hash (ignoring ['mongo_id'] and ['formula']) is not
    the hash of any attempted adsorption document (ignoring also
    ['energy'], ['adsorbates'] and ['adslab_calculation_date']). *)
Theorem get_unsimulated_catalog_docs_filter (docs_simulated docs_catalog : list (hdoc F)) :
  get_unsimulated_catalog_docs F py_round2 str_float py_hash docs_simulated docs_catalog
  = List.filter
      (fun d => negb (bool_decide
         (_hash_doc F py_round2 str_float py_hash d (_hash_docs_ignore catalog_ignore)
          ∈ _hash_docs F py_round2 str_float py_hash docs_simulated simulated_ignore)))
      docs_catalog.
Proof. apply get_unsimulated_filter. Qed.

(** A catalog site that has been attempted is never returned: if an
    attempted document agrees with the catalog document outside the keys
    ignored for attempted documents (floats up to rounding), both are
    dicts, and the catalog document has none of the keys ['energy'],
    ['adsorbates'] and ['adslab_calculation_date'], then the catalog
    document is not in the result. *)
Theorem attempted_site_not_unsimulated (docs_simulated docs_catalog : list (hdoc F))
  (s c : hdoc F) :
  s ∈ docs_simulated ->
  NoDup (map fst s) -> NoDup (map fst c) ->
  (forall k, k ∈ ["energy"; "adsorbates"; "adslab_calculation_date"] -> k ∉ map fst c) ->
  docs_agree_outside F py_round2 (_hash_docs_ignore simulated_ignore) s c ->
  c ∉ get_unsimulated_catalog_docs F py_round2 str_float py_hash docs_simulated docs_catalog.
Proof.
  intros Hs Hns Hnc Hkeys Hag.
  rewrite get_unsimulated_filter. rewrite list_elem_of_In, filter_In.
  intros [_ Hc]. apply negb_true_iff, bool_decide_eq_false in Hc. apply Hc.
  assert (Hsys : _hash_doc_system F py_round2 str_float c (_hash_docs_ignore catalog_ignore)
                 = _hash_doc_system F py_round2 str_float s (_hash_docs_ignore simulated_ignore)).
  { rewrite (hash_system_agree s c _ Hns Hnc Hag). unfold _hash_doc_system.
    apply hash_fold_ignore_ext. intros k Hk. symmetry. apply ignore_lists_differ.
    intros Hk'. apply (Hkeys k Hk'). unfold sorted_keys in Hk.
    by rewrite (merge_sort_Permutation String.le (map fst c)) in Hk. }
  unfold _hash_doc. rewrite Hsys. unfold _hash_docs.
  apply list_elem_of_fmap. exists s. split; [reflexivity|done].
Qed.
End Floats.

(** A string hash for the examples: the bytes read as a base-256 number. *)
Definition hash_bytes (s : string) : Z :=
  fold_left (fun acc a => acc * 256 + Z.of_N (Ascii.N_of_ascii a))%Z
    (list_ascii_of_string s) 0%Z.

Definition sim0 : hdoc Q :=
  [("mongo_id", HStr "a"); ("energy", HFloat (Qmake (-5) 10)); ("site", HStr "x")].
Definition cat0 : hdoc Q :=
  [("mongo_id", HStr "b"); ("formula", HStr "Cu"); ("site", HStr "x")].
Definition cat1 : hdoc Q :=
  [("mongo_id", HStr "c"); ("formula", HStr "Cu"); ("site", HStr "y")].

Lemma attempted_site_not_unsimulated_witness :
  get_unsimulated_catalog_docs Q round2_Q str_Q hash_bytes [sim0] [cat0; cat1] = [cat1] /\
  cat0 ∉ get_unsimulated_catalog_docs Q round2_Q str_Q hash_bytes [sim0] [cat0; cat1].
Proof.
  split; [vm_compute; reflexivity|].
  apply (attempted_site_not_unsimulated Q round2_Q str_Q hash_bytes [sim0] [cat0; cat1] sim0 cat0).
  - by left.
  - apply (bool_decide_unpack (NoDup (map fst sim0))). vm_compute. exact I.
  - apply (bool_decide_unpack (NoDup (map fst cat0))). vm_compute. exact I.
  - intros k Hk Hin. rewrite !elem_of_cons, elem_of_nil in Hk. simpl in Hin.
    rewrite !elem_of_cons, elem_of_nil in Hin.
    destruct Hk as [->|[->|[->|[]]]]; destruct Hin as [H|[H|[H|[]]]]; discriminate.
  - intros k Hk. unfold doc_get. simpl.
    repeat case_bool_decide; subst; simpl; try done;
      exfalso; apply Hk; vm_compute; repeat (first [left | right]).
Defined.

End UnsimulatedProps.

Module DefaultsExtra.
Import Defaults DefaultsProps.

Lemma dict_get_app (d1 d2 : dict) k :
  dict_get (d1 ++ d2)%list k
  = match dict_get d1 k with Some v => Some v | None => dict_get d2 k end.
Proof.
  induction d1 as [|[k' v'] d1 IH]; [reflexivity|].
  unfold dict_get in *. simpl. case_bool_decide; [reflexivity|exact IH].
Qed.

Lemma dict_get_dict_set_ne d k' v k :
  k' <> k -> dict_get (dict_set d k' v) k = dict_get d k.
Proof.
  intros Hk. induction d as [|[k0 v0] d IH]; unfold dict_get in *; simpl.
  - by rewrite bool_decide_false.
  - case_bool_decide as E0; simpl.
    + subst k0. rewrite !bool_decide_false by done. reflexivity.
    + case_bool_decide; [reflexivity|exact IH].
Qed.

Lemma dict_get_None_keys d k : dict_get d k = None <-> k ∉ map fst d.
Proof.
  induction d as [|[k' v'] d IH]; unfold dict_get in *; simpl.
  - split; [intros _ H; by apply elem_of_nil in H|done].
  - case_bool_decide as Hk; simpl.
    + split; [discriminate|]. intros H. exfalso. apply H. subst. by left.
    + rewrite IH, elem_of_cons. naive_solver.
Qed.

Lemma copy_keys_dict_get da db keys k :
  dict_get (copy_keys_dict da db keys) k
  = if bool_decide (k ∈ keys)
    then match dict_get db k with Some v => Some v | None => dict_get da k end
    else dict_get da k.
Proof.
  revert da; induction keys as [|key keys IH]; intros da; [reflexivity|].
  unfold copy_keys_dict in *. simpl. rewrite IH.
  destruct (decide (k = key)) as [->|Hne].
  - rewrite (bool_decide_true (key ∈ key :: keys)) by (apply elem_of_cons; by left).
    case_bool_decide; destruct (dict_get db key) eqn:E; try reflexivity;
      by rewrite dict_get_dict_set.
  - rewrite (bool_decide_ext (k ∈ key :: keys) (k ∈ keys))
      by (rewrite elem_of_cons; naive_solver).
    assert (Hda : dict_get (match dict_get db key with
                            | Some v => dict_set da key v | None => da end) k
                  = dict_get da k).
    { destruct (dict_get db key); [|reflexivity]. by apply dict_get_dict_set_ne. }
    by rewrite Hda.
Qed.

Lemma calc_settings_dict_get ds k :
  dict_get (calc_settings_dict ds) k
  = match dict_get ds k with
    | Some v => Some v
    | None => dict_get [("encut", VInt 350); ("pp_version", VStr "5.4")] k
    end.
Proof.
  unfold calc_settings_dict. rewrite copy_keys_dict_get.
  case_bool_decide as Hk; [reflexivity|].
  by rewrite (proj2 (dict_get_None_keys ds k) Hk).
Qed.

Lemma ordered_dict_kwargs_raise (explicit : dict) (l : positive) (d : dict) (h : heap) :
  h !! l = Some d ->
  (exists k, k ∈ map fst d /\ k ∈ map fst explicit) ->
  ordered_dict_kwargs explicit (VRef l) h = (None, h).
Proof.
  intros Hl (k & Hk & He). unfold ordered_dict_kwargs, bind, read. cbv beta. rewrite Hl.
  assert (existsb (fun kv => bool_decide (fst kv ∈ map fst explicit)) d = true) as ->.
  { apply existsb_exists. apply list_elem_of_fmap in Hk as ([k' v] & -> & Hkv).
    exists (k', v). split; [by apply list_elem_of_In|]. by apply bool_decide_eq_true. }
  reflexivity.
Qed.

Lemma ordered_dict_kwargs_ok (explicit : dict) (l : positive) (d : dict) (h : heap) :
  h !! l = Some d ->
  (forall k, k ∈ map fst d -> k ∉ map fst explicit) ->
  ordered_dict_kwargs explicit (VRef l) h
  = (Some (VRef (fresh (dom h))), <[fresh (dom h) := (explicit ++ d)%list]> h).
Proof.
  intros Hl Hk. unfold ordered_dict_kwargs, bind, read. cbv beta. rewrite Hl.
  assert (existsb (fun kv => bool_decide (fst kv ∈ map fst explicit)) d = false) as ->.
  { apply not_true_iff_false. intros Hx. apply existsb_exists in Hx as ([k v] & Hkv & Hb).
    apply bool_decide_eq_true in Hb. apply (Hk k); [|exact Hb].
    apply list_elem_of_fmap. exists (k, v). split; [done|]. by apply list_elem_of_In. }
  reflexivity.
Qed.

Lemma fresh_alloc_ne (h : heap) d :
  fresh (dom (<[fresh (dom h) := d]> h)) <> fresh (dom h).
Proof.
  intros E. apply (is_fresh (dom (<[fresh (dom h) := d]> h))). rewrite E.
  apply elem_of_dom. eexists. apply lookup_insert_eq.
Qed.

Lemma lookup_alloc_old (h : heap) l d d' :
  h !! l = Some d -> (<[fresh (dom h) := d']> h) !! l = Some d.
Proof.
  intros Hl. rewrite lookup_insert_ne; [exact Hl|]. intros E.
  apply (is_fresh (dom h)). rewrite E. apply elem_of_dom. by eexists.
Qed.

Section WithVasp.
Variable xc_defaults : positive.

Lemma resolve_settings_dict h settings D :
  settings_dict xc_defaults h settings = Some D ->
  exists ls h1, resolve_settings xc_defaults settings h = (Some (VRef ls), h1)
                /\ h ⊆ h1 /\ h1 !! ls = Some D.
Proof.
  destruct settings as [| | | |xc| |l]; simpl; try discriminate.
  - destruct (calc_settings_source xc_defaults h xc) as [ds|] eqn:Hs; [|discriminate].
    intros [= <-]. pose proof (calc_settings_spec xc_defaults h xc ds Hs) as Hr.
    pose proof (pres_refl _ h (pres_calc_settings xc_defaults h xc)) as Hp.
    destruct (calc_settings xc_defaults xc h) as [[[| | | | | |ls]|] h1];
      simpl in Hr; try discriminate.
    exists ls, h1. split; [reflexivity|]. split; [exact Hp|exact Hr].
  - intros Hl. exists l, h. unfold ret. done.
Qed.

(** [calc_settings(xc)] returns a new dict whose value at each key is the
    one the vasp defaults for [xc] give, and otherwise the default
    [encut = 350] and [pp_version = '5.4']; it changes no dict that
    existed before the call. *)
Theorem calc_settings_lookup h xc ds :
  calc_settings_source xc_defaults h xc = Some ds ->
  exists l h' cs,
    calc_settings xc_defaults xc h = (Some (VRef l), h') /\ h ⊆ h' /\ h !! l = None /\
    h' !! l = Some cs /\
    forall k, dict_get cs k
              = match dict_get ds k with
                | Some v => Some v
                | None => dict_get [("encut", VInt 350); ("pp_version", VStr "5.4")] k
                end.
Proof.
  intros Hs. pose proof (calc_settings_spec xc_defaults h xc ds Hs) as Hr.
  pose proof (pres_refl _ h (pres_calc_settings xc_defaults h xc)) as Hp.
  assert (Hl : forall l h', calc_settings xc_defaults xc h = (Some (VRef l), h') -> h !! l = None).
  { intros l h' E. unfold calc_settings, bind in E. cbn [alloc] in E.
    repeat (match type of E with
            | (match ?o with _ => _ end) = _ => destruct o eqn:?
            end; try discriminate E).
    unfold ret in E. injection E as <- _. apply not_elem_of_dom, is_fresh. }
  destruct (calc_settings xc_defaults xc h) as [[[| | | | | |l]|] h'] eqn:E;
    simpl in Hr; try discriminate.
  exists l, h', (calc_settings_dict ds).
  split; [reflexivity|]. split; [exact Hp|]. split; [exact (Hl l h' eq_refl)|].
  split; [exact Hr|]. apply calc_settings_dict_get.
Qed.

(** [gas_parameters(gasname, settings)]: with [settings] a dict or an
    xc name that [calc_settings] resolves to a dict [D], the call raises
    (the TypeError of a repeated keyword) when [D] has one of the keys
    [ibrion], [nsw], [isif], [kpts], [ediffg]; otherwise it returns a new
    dict whose [vasp_settings] maps these keys to the gas defaults and
    every other key as [D] does.  In both cases no dict that existed
    before the call is changed. *)
Theorem gas_parameters_settings gasname settings h D :
  settings_dict xc_defaults h settings = Some D ->
  h ⊆ snd (gas_parameters xc_defaults gasname settings h) /\
  ((exists k, k ∈ map fst D /\ k ∈ ["ibrion"; "nsw"; "isif"; "kpts"; "ediffg"]) ->
   fst (gas_parameters xc_defaults gasname settings h) = None) /\
  ((forall k, k ∈ map fst D -> k ∉ ["ibrion"; "nsw"; "isif"; "kpts"; "ediffg"]) ->
   exists l lv h' dv,
     gas_parameters xc_defaults gasname settings h = (Some (VRef l), h') /\
     h' !! l = Some [("gasname", VStr gasname); ("relaxed", VBool true);
                     ("vasp_settings", VRef lv)] /\
     h' !! lv = Some dv /\
     forall k, dict_get dv k
               = match dict_get [("ibrion", VInt 2); ("nsw", VInt 100); ("isif", VInt 0);
                                 ("kpts", VInts [1; 1; 1]%Z);
                                 ("ediffg", VFloat (-3 # 100)%Q)] k with
                 | Some v => Some v
                 | None => dict_get D k
                 end).
Proof.
  intros HD. destruct (resolve_settings_dict h settings D HD) as (ls & h1 & Hr & Hsub & Hls).
  unfold gas_parameters. rewrite (bind_Some _ _ _ _ _ Hr).
  split; [|split].
  - eapply pres_apply; [|exact Hsub].
    apply pres_bind; [apply pres_ordered_dict_kwargs|]. intros vs.
    apply pres_bind; [apply pres_alloc|]. intros l. apply pres_ret.
  - intros Hk. cbv beta. erewrite bind_None; [reflexivity|].
    apply (ordered_dict_kwargs_raise _ ls D h1 Hls). exact Hk.
  - intros Hk. cbv beta. erewrite bind_Some;
      [|apply (ordered_dict_kwargs_ok _ ls D h1 Hls); exact Hk].
    simpl. do 4 eexists. split; [reflexivity|]. split; [apply lookup_insert_eq|].
    split; [rewrite lookup_insert_ne by apply fresh_alloc_ne; apply lookup_insert_eq|].
    intros k.
    exact (dict_get_app [("ibrion", VInt 2); ("nsw", VInt 100); ("isif", VInt 0);
                         ("kpts", VInts [1; 1; 1]%Z); ("ediffg", VFloat (-3 # 100)%Q)] D k).
Qed.

(** [slab_parameters(miller, top, shift, settings)]: with [settings] a
    dict or an xc name that [calc_settings] resolves to a dict [D], the
    call raises when [D] has one of the keys [ibrion], [nsw], [isif],
    [isym], [kpts], [lreal], [ediffg]; otherwise it returns a new dict
    holding [miller], [top] and [shift], whose [vasp_settings] maps these
    keys to the slab defaults and every other key as [D] does.  In both
    cases no dict that existed before the call is changed. *)
Theorem slab_parameters_settings miller top shift settings h D :
  settings_dict xc_defaults h settings = Some D ->
  h ⊆ snd (slab_parameters xc_defaults miller top shift settings h) /\
  ((exists k, k ∈ map fst D /\
              k ∈ ["ibrion"; "nsw"; "isif"; "isym"; "kpts"; "lreal"; "ediffg"]) ->
   fst (slab_parameters xc_defaults miller top shift settings h) = None) /\
  ((forall k, k ∈ map fst D ->
              k ∉ ["ibrion"; "nsw"; "isif"; "isym"; "kpts"; "lreal"; "ediffg"]) ->
   exists l lv sg gs h' dv,
     slab_parameters xc_defaults miller top shift settings h = (Some (VRef l), h') /\
     h' !! l = Some [("miller", miller); ("top", top); ("max_miller", VInt 2);
                     ("shift", shift); ("relaxed", VBool true); ("vasp_settings", VRef lv);
                     ("slab_generate_settings", VRef sg); ("get_slab_settings", VRef gs)] /\
     h' !! lv = Some dv /\
     forall k, dict_get dv k
               = match dict_get [("ibrion", VInt 2); ("nsw", VInt 100); ("isif", VInt 0);
                                 ("isym", VInt 0); ("kpts", VInts [4; 4; 1]%Z);
                                 ("lreal", VStr "Auto");
                                 ("ediffg", VFloat (-3 # 100)%Q)] k with
                 | Some v => Some v
                 | None => dict_get D k
                 end).
Proof.
  intros HD. destruct (resolve_settings_dict h settings D HD) as (ls & h1 & Hr & Hsub & Hls).
  unfold slab_parameters. rewrite (bind_Some _ _ _ _ _ Hr).
  split; [|split].
  - eapply pres_apply; [|exact Hsub].
    apply pres_bind; [apply pres_ordered_dict_kwargs|]. intros vs.
    apply pres_bind; [apply pres_alloc|]. intros sg.
    apply pres_bind; [apply pres_alloc|]. intros gs.
    apply pres_bind; [apply pres_alloc|]. intros l. apply pres_ret.
  - intros Hk. cbv beta. erewrite bind_None; [reflexivity|].
    apply (ordered_dict_kwargs_raise _ ls D h1 Hls). exact Hk.
  - intros Hk. cbv beta. erewrite bind_Some;
      [|apply (ordered_dict_kwargs_ok _ ls D h1 Hls); exact Hk].
    simpl. do 6 eexists. split; [reflexivity|]. split; [apply lookup_insert_eq|].
    split; [|intros k;
             exact (dict_get_app [("ibrion", VInt 2); ("nsw", VInt 100); ("isif", VInt 0);
                                  ("isym", VInt 0); ("kpts", VInts [4; 4; 1]%Z);
                                  ("lreal", VStr "Auto");
                                  ("ediffg", VFloat (-3 # 100)%Q)] D k)].
    do 3 apply lookup_alloc_old. apply lookup_insert_eq.
Qed.
End WithVasp.

(** Settles a decidable goal about concrete lists by evaluation. *)
Ltac decide_prop :=
  match goal with |- ?P => apply (bool_decide_unpack P); vm_compute; exact I end.

(** A user settings dict [{'kpts': [2, 2, 2]}] next to the vasp defaults. *)
Definition heap1 : heap := <[3%positive := [("kpts", VInts [2; 2; 2]%Z)]]> heap0.

Lemma calc_settings_lookup_witness :
  exists l h' cs,
    calc_settings xc_defaults0 "beef-vdw" heap0 = (Some (VRef l), h') /\
    h' !! l = Some cs /\ dict_get cs "gga" = Some (VStr "BF") /\
    dict_get cs "encut" = Some (VInt 350).
Proof.
  destruct (calc_settings_lookup xc_defaults0 heap0 "beef-vdw"
              [("gga", VStr "BF"); ("luse_vdw", VBool true)]
              ltac:(vm_compute; reflexivity)) as (l & h' & cs & E & _ & _ & Hl & Hk).
  exists l, h', cs. split; [exact E|]. split; [exact Hl|].
  split; rewrite Hk; reflexivity.
Defined.

Lemma gas_parameters_settings_witness :
  fst (gas_parameters xc_defaults0 "CO" (VRef 3) heap1) = None /\
  exists l lv h' dv,
    gas_parameters xc_defaults0 "CO" (VStr "beef-vdw") heap0 = (Some (VRef l), h') /\
    h' !! lv = Some dv /\ dict_get dv "ibrion" = Some (VInt 2) /\
    dict_get dv "gga" = Some (VStr "BF").
Proof.
  split.
  - apply (proj1 (proj2 (gas_parameters_settings xc_defaults0 "CO" (VRef 3) heap1
                          [("kpts", VInts [2; 2; 2]%Z)] ltac:(vm_compute; reflexivity)))).
    exists "kpts". split; decide_prop.
  - destruct (proj2 (proj2 (gas_parameters_settings xc_defaults0 "CO" (VStr "beef-vdw") heap0
                 (calc_settings_dict [("gga", VStr "BF"); ("luse_vdw", VBool true)])
                 ltac:(vm_compute; reflexivity))))
      as (l & lv & h' & dv & E & _ & Hv & Hk).
    + apply Forall_forall. decide_prop.
    + exists l, lv, h', dv. split; [exact E|]. split; [exact Hv|].
      split; rewrite Hk; reflexivity.
Defined.

Lemma slab_parameters_settings_witness :
  fst (slab_parameters xc_defaults0 (VInts [1; 1; 1]%Z) (VBool true) (VFloat 0)
         (VRef 3) heap1) = None /\
  exists l lv h' dv,
    slab_parameters xc_defaults0 (VInts [1; 1; 1]%Z) (VBool true) (VFloat 0)
      (VStr "beef-vdw") heap0 = (Some (VRef l), h') /\
    h' !! lv = Some dv /\ dict_get dv "kpts" = Some (VInts [4; 4; 1]%Z) /\
    dict_get dv "luse_vdw" = Some (VBool true).
Proof.
  split.
  - apply (proj1 (proj2 (slab_parameters_settings xc_defaults0 (VInts [1; 1; 1]%Z)
                          (VBool true) (VFloat 0) (VRef 3) heap1
                          [("kpts", VInts [2; 2; 2]%Z)] ltac:(vm_compute; reflexivity)))).
    exists "kpts". split; decide_prop.
  - destruct (proj2 (proj2 (slab_parameters_settings xc_defaults0 (VInts [1; 1; 1]%Z)
                 (VBool true) (VFloat 0) (VStr "beef-vdw") heap0
                 (calc_settings_dict [("gga", VStr "BF"); ("luse_vdw", VBool true)])
                 ltac:(vm_compute; reflexivity))))
      as (l & lv & sg & gs & h' & dv & E & _ & Hv & Hk).
    + apply Forall_forall. decide_prop.
    + exists l, lv, h', dv. split; [exact E|]. split; [exact Hv|].
      split; rewrite Hk; reflexivity.
Defined.

End DefaultsExtra.

Module EnergyExtra.
Import Energy EnergyProps.

Lemma mono_atom_energies_None g s : mono_atom_energies g s = None <-> ~ chon s.
Proof.
  unfold mono_atom_energies, chon.
  repeat case_bool_decide; subst; split; try discriminate; try tauto;
    intros _ [?|[?|?]]; contradiction.
Qed.

Lemma map_opt_mono_None g (syms : list string) :
  map_opt (mono_atom_energies g) syms = None <-> exists s, s ∈ syms /\ ~ chon s.
Proof.
  induction syms as [|s syms IH]; simpl.
  - split; [discriminate|]. intros (s & Hs & _). by apply elem_of_nil in Hs.
  - destruct (mono_atom_energies g s) as [e|] eqn:Es.
    + assert (Hc : chon s).
      { destruct (decide (chon s)) as [|Hn]; [done|].
        apply (proj2 (mono_atom_energies_None g s)) in Hn. congruence. }
      destruct (map_opt (mono_atom_energies g) syms) as [es|] eqn:Er.
      * split; [discriminate|]. intros (s' & Hs' & Hn).
        apply elem_of_cons in Hs' as [->|Hs']; [done|].
        assert (Some es = None) by (apply IH; eauto). discriminate.
      * split; [|done]. intros _. destruct (proj1 IH eq_refl) as (s' & ? & ?).
        exists s'. split; [by right|done].
    + split; [|done]. intros _. exists s. split; [by left|].
      by apply (proj1 (mono_atom_energies_None g s)).
Qed.

Section WithAds.
Variable ads_dict : string -> option (list string).

Lemma gas_energy_loop_None g (ads : list string) acc :
  gas_energy_loop ads_dict g ads acc = None <->
  exists name, name ∈ ads /\
    match ads_dict name with
    | None => True
    | Some syms => exists s, s ∈ syms /\ ~ chon s
    end.
Proof.
  revert acc; induction ads as [|n ads IH]; intros acc; simpl.
  - split; [discriminate|]. intros (n & Hn & _). by apply elem_of_nil in Hn.
  - destruct (ads_dict n) as [syms|] eqn:Ed.
    + destruct (map_opt (mono_atom_energies g) syms) as [es|] eqn:Em.
      * rewrite IH. split; intros (n' & Hn' & Hb).
        -- exists n'. split; [by right|done].
        -- apply elem_of_cons in Hn' as [->|Hn'].
           ++ rewrite Ed in Hb. apply (proj2 (map_opt_mono_None g syms)) in Hb. congruence.
           ++ by exists n'.
      * split; [|done]. intros _. exists n. split; [by left|]. rewrite Ed.
        by apply (proj1 (map_opt_mono_None g syms)).
    + split; [|done]. intros _. exists n. split; [by left|]. by rewrite Ed.
Qed.

(** [CalculateEnergy.run] raises when there is no adsorbate candidate
    or no blank-slab candidate (ValueError of [np.argmin] on an empty
    list), or when some adsorbate is unknown to [ads_dict] or has an atom
    other than H, O and C (KeyError of [mono_atom_energies]): no
    adsorption energy is computed then.  ([run] has further failures,
    on the gas pickles and the keys of the parameters, that these
    conditions do not cover.) *)
Theorem calculate_energy_fails g (slab_ads slab_blank : list Q) (adsorbates : list string) :
  (slab_ads = [] \/ slab_blank = [] \/
   exists name, name ∈ adsorbates /\
     match ads_dict name with
     | None => True
     | Some syms => exists s, s ∈ syms /\ ~ chon s
     end) ->
  calculate_energy_dE ads_dict g slab_ads slab_blank adsorbates = None.
Proof.
  intros H. unfold calculate_energy_dE.
  destruct slab_ads as [|x r]; [reflexivity|].
  destruct (np_argmin_min x r) as (k & v & Hk & Hv & _). rewrite Hk, Hv.
  destruct slab_blank as [|y r']; [reflexivity|]. simpl.
  destruct H as [H|[H|H]]; try discriminate H.
  by rewrite (proj2 (gas_energy_loop_None g adsorbates 0) H).
Qed.
End WithAds.

Definition ads_dict0 (name : string) : option (list string) :=
  if bool_decide (name = "CO") then Some ["C"; "O"]
  else if bool_decide (name = "NO") then Some ["N"; "O"] else None.

Lemma calculate_energy_fails_witness :
  calculate_energy_dE ads_dict0 {| E_CO := (-14)%Q; E_H2 := (-6)%Q; E_H2O := (-12)%Q |}
    [(-100)%Q; (-101)%Q] [(-90)%Q] ["CO"; "NO"] = None.
Proof.
  apply (calculate_energy_fails ads_dict0 {| E_CO := (-14)%Q; E_H2 := (-6)%Q; E_H2O := (-12)%Q |}
           [(-100)%Q; (-101)%Q] [(-90)%Q] ["CO"; "NO"]).
  right; right. exists "NO". split; [apply elem_of_cons; right; apply elem_of_cons; by left|].
  simpl. exists "N". split; [apply elem_of_cons; by left|].
  unfold chon. intros [H|[H|H]]; discriminate H.
Defined.

End EnergyExtra.

Module HarvestExtra.
Import Harvest HarvestProps.

Lemma get_fw_by_id_Some (lp : launchpad) fwid fw :
  get_fw_by_id lp fwid = Some fw -> fw ∈ lp /\ fw_id fw = fwid.
Proof.
  unfold get_fw_by_id. intros Hf. apply find_some in Hf as [Hin Heq].
  split; [by apply list_elem_of_In|]. by apply Z.eqb_eq.
Qed.

Lemma dump_loop_docs lp fws (todo : list Z) (db db' : aux_db) :
  dump_loop lp fws todo db = Some db' ->
  exists new, db' = (db ++ new)%list /\
    Forall (fun d => exists fwid fw, fwid ∈ todo /\ get_fw_by_id lp fwid = Some fw
                                     /\ d = make_doc fw fwid) new.
Proof.
  revert db; induction todo as [|fwid todo IH]; intros db Hrun; simpl in Hrun.
  - injection Hrun as <-. exists []. by rewrite app_nil_r.
  - case_bool_decide.
    + destruct (IH db Hrun) as (new & -> & Hnew). exists new. split; [done|].
      eapply Forall_impl; [exact Hnew|]. intros d (x & fw & Hx & Hfw & ->).
      exists x, fw. split; [by right|done].
    + destruct (get_fw_by_id lp fwid) as [fw|] eqn:Efw; [|discriminate].
      destruct (IH _ Hrun) as (new & -> & Hnew).
      exists (make_doc fw fwid :: new). rewrite <- app_assoc. split; [done|].
      constructor.
      * exists fwid, fw. split; [by left|done].
      * eapply Forall_impl; [exact Hnew|]. intros d (x & fw' & Hx & Hfw & ->).
        exists x, fw'. split; [by right|done].
Qed.

(** With the fwids of the launchpad unique, every document that
    [DumpBulkGasToAuxDB.run] adds to the Auxiliary DB comes from a
    completed firework of the launchpad: it holds the firework's fwid
    and launch directory, and has type ['bulk'] for a unit-cell
    optimization and ['gas'] for a gas-phase optimization. *)
Theorem dump_bulk_gas_docs (lp : launchpad) (db db' : aux_db) :
  NoDup (fw_id <$> lp) ->
  dump_bulk_gas_run lp db = Some db' ->
  exists new, db' = (db ++ new)%list /\
    Forall (fun d => exists fw, fw ∈ lp /\ fw_state fw = "COMPLETED" /\
              doc_fwid d = Some (fw_id fw) /\ doc_directory d = fw_launch_dir fw /\
              ((fw_calculation_type fw = "unit cell optimization" /\ doc_type d = Some "bulk")
               \/ (fw_calculation_type fw = "gas phase optimization"
                   /\ doc_type d = Some "gas"))) new.
Proof.
  intros Hnd Hrun. unfold dump_bulk_gas_run in Hrun.
  destruct (dump_loop_docs _ _ _ _ _ Hrun) as (new & -> & Hnew).
  exists new. split; [done|].
  eapply Forall_impl; [exact Hnew|]. intros d (fwid & fw & Hin & Hfw & ->).
  destruct (get_fw_by_id_Some _ _ _ Hfw) as [Hfw_in Hid].
  assert (Hc : exists fw', fw' ∈ lp /\ fw_id fw' = fwid /\ fw_state fw' = "COMPLETED" /\
                 (fw_calculation_type fw' = "unit cell optimization"
                  \/ fw_calculation_type fw' = "gas phase optimization")).
  { unfold fws_cmpltd, get_fw_ids in Hin.
    apply elem_of_app in Hin as [Hin|Hin];
      apply list_elem_of_fmap in Hin as (fw' & -> & Hin);
      apply list_elem_of_filter in Hin as [Hp Hin];
      apply Is_true_eq_true, andb_prop in Hp as [Hs Hct];
      apply bool_decide_eq_true in Hs, Hct;
      exists fw'; repeat split; auto. }
  destruct Hc as (fw' & Hin' & Hid' & Hst & Hct).
  assert (fw' = fw) as -> by (eapply NoDup_map_inj_in; eauto; congruence).
  exists fw. split; [done|]. split; [done|]. simpl.
  split; [by rewrite Hid|]. split; [done|].
  destruct Hct as [Hct|Hct]; rewrite Hct; [left|right].
  - split; [done|]. by rewrite bool_decide_true.
  - split; [done|]. rewrite bool_decide_false by discriminate. by rewrite bool_decide_true.
Qed.

Definition lp0 : launchpad :=
  [ {| fw_id := 1; fw_state := "COMPLETED"; fw_calculation_type := "unit cell optimization";
       fw_launch_dir := "/a" |};
    {| fw_id := 2; fw_state := "RUNNING"; fw_calculation_type := "gas phase optimization";
       fw_launch_dir := "/b" |};
    {| fw_id := 3; fw_state := "COMPLETED"; fw_calculation_type := "gas phase optimization";
       fw_launch_dir := "/c" |} ].

Lemma dump_bulk_gas_docs_witness :
  dump_bulk_gas_run lp0 []
  = Some [ {| doc_fwid := Some 1%Z; doc_type := Some "bulk"; doc_directory := "/a" |};
           {| doc_fwid := Some 3%Z; doc_type := Some "gas"; doc_directory := "/c" |} ] /\
  exists new, dump_bulk_gas_run lp0 [] = Some ([] ++ new)%list /\
    Forall (fun d => exists fw, fw ∈ lp0 /\ fw_state fw = "COMPLETED" /\
              doc_fwid d = Some (fw_id fw) /\ doc_directory d = fw_launch_dir fw /\
              ((fw_calculation_type fw = "unit cell optimization" /\ doc_type d = Some "bulk")
               \/ (fw_calculation_type fw = "gas phase optimization"
                   /\ doc_type d = Some "gas"))) new.
Proof.
  assert (Hrun : dump_bulk_gas_run lp0 []
    = Some [ {| doc_fwid := Some 1%Z; doc_type := Some "bulk"; doc_directory := "/a" |};
             {| doc_fwid := Some 3%Z; doc_type := Some "gas"; doc_directory := "/c" |} ])
    by (vm_compute; reflexivity).
  split; [exact Hrun|].
  destruct (dump_bulk_gas_docs lp0 [] _
              ltac:(apply (bool_decide_unpack (NoDup (fw_id <$> lp0))); vm_compute; exact I)
              Hrun) as (new & Hnew & Hdocs).
  exists new. split; [by rewrite Hrun, Hnew|exact Hdocs].
Defined.

End HarvestExtra.

Module DedupProps.
Import Dedup.

Lemma filter_all {A} (P : A -> Prop) `{!forall x, Decision (P x)} (l : list A) :
  (forall x, x ∈ l -> P x) -> filter P l = l.
Proof.
  induction l as [|x l IH]; intros Hl; [done|].
  rewrite filter_cons_True by (apply Hl; by left). rewrite IH; [done|].
  intros y Hy. apply Hl. by right.
Qed.

Lemma List_filter_bool {A} (P : A -> Prop) `{!forall x, Decision (P x)} (l : list A) :
  List.filter (fun x => bool_decide (P x)) l = filter P l.
Proof.
  induction l as [|x l IH]; [done|]. simpl. rewrite filter_cons. rewrite IH.
  by case_bool_decide; [rewrite decide_True|rewrite decide_False].
Qed.

Lemma length_one {A} (l : list A) d0 :
  NoDup l -> (forall x, x ∈ l -> x = d0) -> d0 ∈ l -> length l = 1.
Proof.
  intros Hnd Hall Hd0. destruct l as [|a [|b l]].
  - by apply elem_of_nil in Hd0.
  - reflexivity.
  - exfalso. apply NoDup_cons in Hnd as [Hab _]. apply Hab.
    rewrite (Hall a (list_elem_of_here _ _)), (Hall b ltac:(right; left)). by left.
Qed.

Lemma NoDup_map_inv' {A B} (f : A -> B) (l : list A) : NoDup (map f l) -> NoDup l.
Proof.
  induction l as [|x l IH]; simpl; intros Hnd; [constructor|].
  apply NoDup_cons in Hnd as [Hx Hnd]. apply NoDup_cons. split; [|by apply IH].
  intros Hin. apply Hx. apply list_elem_of_In, in_map_iff. exists x.
  split; [done|by apply list_elem_of_In].
Qed.

Section Collection.
Variable K : Type.
Context `{EqDecision K}.
Variable group_order : list K -> list K.
Variable add_to_set : K -> list Z -> list Z.

Lemma mdoc_inj (coll : list (mdoc K)) d1 d2 :
  NoDup (map fst coll) -> d1 ∈ coll -> d2 ∈ coll -> fst d1 = fst d2 -> d1 = d2.
Proof.
  induction coll as [|d coll IH]; simpl; intros Hnd H1 H2 Heq.
  - by apply elem_of_nil in H1.
  - apply NoDup_cons in Hnd as [Hd Hnd].
    apply elem_of_cons in H1 as [->|H1]; apply elem_of_cons in H2 as [->|H2];
      [done| | |by apply IH].
    + exfalso. apply Hd. rewrite Heq. apply list_elem_of_In, in_map_iff.
      exists d2. split; [done|by apply list_elem_of_In].
    + exfalso. apply Hd. rewrite <- Heq. apply list_elem_of_In, in_map_iff.
      exists d1. split; [done|by apply list_elem_of_In].
Qed.

Lemma group_ids_elem (coll : list (mdoc K)) k i :
  i ∈ group_ids K coll k <-> exists d, d ∈ coll /\ fst d = i /\ snd d = k.
Proof.
  unfold group_ids. rewrite list_elem_of_In, in_map_iff. split.
  - intros (d & <- & Hd). apply filter_In in Hd as [Hd Hk].
    apply bool_decide_eq_true in Hk. exists d. split; [by apply list_elem_of_In|done].
  - intros (d & Hd & <- & Hk). exists d. split; [done|].
    apply filter_In. split; [by apply list_elem_of_In|by apply bool_decide_eq_true].
Qed.

Lemma delete_one_filter (coll : list (mdoc K)) id_ :
  NoDup (map fst coll) -> delete_one K id_ coll = filter (fun d => fst d <> id_) coll.
Proof.
  induction coll as [|d coll IH]; simpl; intros Hnd; [done|].
  apply NoDup_cons in Hnd as [Hd Hnd].
  rewrite filter_cons. destruct (Z.eqb_spec (fst d) id_) as [Heq|Hne].
  - rewrite decide_False by tauto. symmetry. apply filter_all. intros d' Hd' E.
    apply Hd. rewrite Heq, <- E. apply list_elem_of_In, in_map_iff.
    exists d'. split; [done|by apply list_elem_of_In].
  - rewrite decide_True by done. by rewrite IH.
Qed.

Lemma NoDup_map_fst_filter (P : mdoc K -> Prop) `{!forall d, Decision (P d)}
  (coll : list (mdoc K)) :
  NoDup (map fst coll) -> NoDup (map fst (filter P coll)).
Proof.
  induction coll as [|d coll IH]; simpl; intros Hnd; [constructor|].
  apply NoDup_cons in Hnd as [Hd Hnd]. rewrite filter_cons. case_decide; [|by apply IH].
  simpl. apply NoDup_cons. split; [|by apply IH].
  intros Hin. apply Hd. apply list_elem_of_In, in_map_iff in Hin as (d' & E & Hin).
  apply list_elem_of_In, in_map_iff. exists d'. split; [done|].
  apply list_elem_of_In. apply list_elem_of_In in Hin.
  by apply list_elem_of_filter in Hin as [_ ?].
Qed.

Lemma delete_ids_filter (coll : list (mdoc K)) ids :
  NoDup (map fst coll) ->
  fold_left (fun c id_ => delete_one K id_ c) ids coll = filter (fun d => fst d ∉ ids) coll.
Proof.
  revert coll; induction ids as [|id_ ids IH]; intros coll Hnd; simpl.
  - symmetry. apply filter_all. intros d _ H. by apply elem_of_nil in H.
  - rewrite delete_one_filter by done. rewrite IH by (by apply NoDup_map_fst_filter).
    rewrite list_filter_filter. apply list_filter_iff. intros d.
    rewrite elem_of_cons. tauto.
Qed.

Definition deleted_ids (coll : list (mdoc K)) : list Z :=
  concat (map (fun g => tail (mongo_ids K g)) (aggregate K group_order add_to_set coll)).

Lemma fold_groups_filter (gs : list (group K)) (c : list (mdoc K)) :
  NoDup (map fst c) ->
  fold_left (fun c doc => fold_left (fun c id_ => delete_one K id_ c)
                            (tail (mongo_ids K doc)) c) gs c
  = filter (fun d => fst d ∉ concat (map (fun g => tail (mongo_ids K g)) gs)) c.
Proof.
  revert c; induction gs as [|g gs IH]; intros c Hc; simpl.
  - symmetry. apply filter_all. intros d _ H. by apply elem_of_nil in H.
  - rewrite delete_ids_filter by done. rewrite IH by (by apply NoDup_map_fst_filter).
    rewrite list_filter_filter. apply list_filter_iff. intros d.
    rewrite elem_of_app. tauto.
Qed.

Lemma remove_duplicates_filter (coll : list (mdoc K)) :
  NoDup (map fst coll) ->
  _remove_duplicates_in_a_collection K group_order add_to_set coll
  = filter (fun d => fst d ∉ deleted_ids coll) coll.
Proof.
  intros Hnd. unfold _remove_duplicates_in_a_collection, deleted_ids.
  by apply fold_groups_filter.
Qed.

Lemma elem_of_tail (l : list Z) x : x ∈ tail l -> x ∈ l.
Proof. destruct l; simpl; [intros H; by apply elem_of_nil in H|intros H; by right]. Qed.

Lemma deleted_ids_elem (coll : list (mdoc K)) d :
  NoDup (map fst coll) ->
  (forall ks, group_order ks ≡ₚ ks) ->
  (forall k ids, add_to_set k ids ≡ₚ remove_dups ids) ->
  d ∈ coll ->
  fst d ∈ deleted_ids coll <->
  1 < length (group_ids K coll (snd d)) /\
  fst d ∈ tail (add_to_set (snd d) (group_ids K coll (snd d))).
Proof.
  intros Hnd Hord Hats Hd. unfold deleted_ids, aggregate.
  rewrite list_elem_of_In, in_concat. split.
  - intros (ids & Hids & Hin). apply in_map_iff in Hids as (g & <- & Hg).
    apply filter_In in Hg as [Hg Hc]. apply in_map_iff in Hg as (k & <- & _).
    simpl in *. apply Nat.ltb_lt in Hc. apply list_elem_of_In in Hin.
    assert (Hk : snd d = k).
    { pose proof (elem_of_tail _ _ Hin) as Hin'. rewrite (Hats k) in Hin'.
      apply elem_of_remove_dups, group_ids_elem in Hin' as (d' & Hd' & Hid & Hk').
      rewrite <- (mdoc_inj coll d' d Hnd Hd' Hd Hid). exact Hk'. }
    subst k. split; [exact Hc|exact Hin].
  - intros [Hc Hin]. exists (tail (add_to_set (snd d) (group_ids K coll (snd d)))).
    split; [|by apply list_elem_of_In].
    apply in_map_iff.
    exists {| group_key := snd d;
              mongo_ids := add_to_set (snd d) (group_ids K coll (snd d));
              count := length (group_ids K coll (snd d)) |}.
    split; [reflexivity|]. apply filter_In. split; [|by apply Nat.ltb_lt].
    apply in_map_iff. exists (snd d). split; [reflexivity|].
    apply list_elem_of_In. rewrite (Hord _). apply elem_of_remove_dups.
    apply list_elem_of_In, in_map_iff. exists d. split; [done|by apply list_elem_of_In].
Qed.

(** [_remove_duplicates_in_a_collection]: with the [_id]s of the
    collection unique, and whatever orders Mongo gives to the groups and
    to the ids within a group, the collection afterwards is a
    sub-collection of the one before in which each identifying value of a
    document before the call is held by exactly one document. *)
Theorem remove_duplicates_one_per_value (coll : list (mdoc K)) :
  NoDup (map fst coll) ->
  (forall ks, group_order ks ≡ₚ ks) ->
  (forall k ids, add_to_set k ids ≡ₚ remove_dups ids) ->
  _remove_duplicates_in_a_collection K group_order add_to_set coll `sublist_of` coll /\
  forall k, k ∈ map snd coll ->
    length (List.filter (fun d => bool_decide (snd d = k))
              (_remove_duplicates_in_a_collection K group_order add_to_set coll)) = 1.
Proof.
  intros Hnd Hord Hats. rewrite remove_duplicates_filter by done.
  split; [apply sublist_filter|]. intros k Hk.
  rewrite List_filter_bool, list_filter_filter.
  apply list_elem_of_In, in_map_iff in Hk as (d & <- & Hd). apply list_elem_of_In in Hd.
  set (G := group_ids K coll (snd d)).
  assert (HdG : fst d ∈ G) by (apply group_ids_elem; by exists d).
  assert (Hsurv : exists d0, d0 ∈ coll /\ snd d0 = snd d /\ (fst d0 ∉ deleted_ids coll) /\
            forall d', d' ∈ coll -> snd d' = snd d -> (fst d' ∉ deleted_ids coll) -> d' = d0).
  { destruct (Nat.lt_ge_cases 1 (length G)) as [Hlt|Hge].
    - destruct (add_to_set (snd d) G) as [|a t] eqn:EA.
      + exfalso. pose proof (Hats (snd d) G) as Hp. rewrite EA in Hp.
        assert (Hn : fst d ∈ remove_dups G) by (by apply elem_of_remove_dups).
        rewrite <- Hp in Hn. by apply elem_of_nil in Hn.
      + assert (HndA : NoDup (a :: t)).
        { rewrite <- EA, (Hats (snd d) G). apply NoDup_remove_dups. }
        assert (HaG : a ∈ G).
        { apply (elem_of_remove_dups G a). rewrite <- (Hats (snd d) G), EA. by left. }
        apply group_ids_elem in HaG as (d0 & Hd0 & Ha & Hk0).
        exists d0. split; [done|]. split; [done|]. split.
        * rewrite (deleted_ids_elem coll d0 Hnd Hord Hats Hd0), Hk0. fold G.
          rewrite EA. simpl. intros [_ Hin]. apply NoDup_cons in HndA as [Hat _].
          rewrite Ha in Hin. contradiction.
        * intros d' Hd' Hk' Hdel. apply (mdoc_inj coll d' d0 Hnd Hd' Hd0).
          assert (Hd'G : fst d' ∈ G) by (apply group_ids_elem; by exists d').
          rewrite <- elem_of_remove_dups in Hd'G. rewrite <- (Hats (snd d) G), EA in Hd'G.
          apply elem_of_cons in Hd'G as [->|Hin]; [done|].
          exfalso. apply Hdel. rewrite (deleted_ids_elem coll d' Hnd Hord Hats Hd'), Hk'.
          fold G. rewrite EA. split; [exact Hlt|exact Hin].
    - exists d. split; [done|]. split; [done|]. split.
      + rewrite (deleted_ids_elem coll d Hnd Hord Hats Hd). fold G. lia.
      + intros d' Hd' Hk' _. apply (mdoc_inj coll d' d Hnd Hd' Hd).
        assert (Hd'G : fst d' ∈ G) by (apply group_ids_elem; by exists d').
        destruct G as [|i [|j G']]; simpl in Hge.
        * by apply elem_of_nil in HdG.
        * apply list_elem_of_singleton in HdG, Hd'G. congruence.
        * lia. }
  destruct Hsurv as (d0 & Hd0 & Hk0 & Hn0 & Huniq).
  apply (length_one _ d0).
  - apply NoDup_filter. by apply (NoDup_map_inv' fst).
  - intros x Hx. apply list_elem_of_filter in Hx as [[Hxk Hxd] Hx]. by apply Huniq.
  - apply list_elem_of_filter. split; [split; done|done].
Qed.
End Collection.

(** A collection with two documents for fwid 7 and one for fwid 8; ids
    as they come, groups in order of first appearance. *)
Definition coll0 : list (mdoc Z) := [(1, 7); (2, 8); (3, 7)]%Z.

Lemma remove_duplicates_one_per_value_witness :
  _remove_duplicates_in_a_collection Z (fun ks => ks) (fun _ ids => remove_dups ids) coll0
  = [(1, 7); (2, 8)]%Z /\
  length (List.filter (fun d => bool_decide (snd d = 7%Z))
            (_remove_duplicates_in_a_collection Z (fun ks => ks)
               (fun _ ids => remove_dups ids) coll0)) = 1.
Proof.
  split; [vm_compute; reflexivity|].
  apply (proj2 (remove_duplicates_one_per_value Z (fun ks => ks)
                  (fun _ ids => remove_dups ids) coll0
                  ltac:(apply (bool_decide_unpack (NoDup (map fst coll0))); vm_compute; exact I)
                  ltac:(intros ks; reflexivity)
                  ltac:(intros k ids; reflexivity))).
  apply list_elem_of_In. simpl. tauto.
Defined.

End DedupProps.

Module RequiresExtra.
Import Tasks.

Lemma getitem_set_assoc_eq kvs k v : getitem (JDict (set_assoc kvs k v)) k = Some v.
Proof.
  induction kvs as [|[k' v'] kvs IH]; simpl; [by rewrite bool_decide_true|].
  case_bool_decide as E; simpl.
  - by rewrite bool_decide_true.
  - rewrite bool_decide_false by done. exact IH.
Qed.

Lemma getitem_set_assoc_ne kvs k v k0 :
  k0 <> k -> getitem (JDict (set_assoc kvs k v)) k0 = getitem (JDict kvs) k0.
Proof.
  intros Hne. induction kvs as [|[k' v'] kvs IH]; simpl; [by rewrite bool_decide_false|].
  case_bool_decide as E; simpl.
  - subst k'. rewrite !bool_decide_false by congruence. reflexivity.
  - case_bool_decide; [reflexivity|exact IH].
Qed.

Lemma getitem_dict p k v : getitem p k = Some v -> exists kvs, p = JDict kvs.
Proof. destruct p; try discriminate. by eexists. Qed.

(** [set_nested p k1 k2 v] when [p[k1]] is a dict: the copy holds [v] at
    [k1][k2] and agrees with [p] everywhere else. *)
Lemma set_nested_spec p k1 k2 v inner :
  getitem p k1 = Some (JDict inner) ->
  exists q inner', set_nested p k1 k2 v = Some q /\
    getitem q k1 = Some (JDict inner') /\ getitem (JDict inner') k2 = Some v /\
    (forall k, k <> k1 -> getitem q k = getitem p k) /\
    (forall k, k <> k2 -> getitem (JDict inner') k = getitem (JDict inner) k).
Proof.
  intros Hin. destruct (getitem_dict _ _ _ Hin) as [kvs ->].
  unfold set_nested. rewrite Hin. simpl.
  eexists _, _. split; [reflexivity|]. split; [apply getitem_set_assoc_eq|].
  split; [apply getitem_set_assoc_eq|]. split.
  - intros k Hk. by apply getitem_set_assoc_ne.
  - intros k Hk. by apply getitem_set_assoc_ne.
Qed.

Lemma setitem_gas_spec g name :
  exists g', setitem (JDict g) "gasname" (JStr name) = Some g' /\
    getitem g' "gasname" = Some (JStr name) /\
    forall k, k <> "gasname" -> getitem g' k = getitem (JDict g) k.
Proof.
  eexists. split; [reflexivity|]. split; [apply getitem_set_assoc_eq|].
  intros k Hk. by apply getitem_set_assoc_ne.
Qed.

(** [CalculateEnergy(p).requires()], with [p['adsorption']] and
    [p['gas']] dicts: the relaxation of [p]; that of the blank slab,
    whose parameters are [p] with [adsorption.adsorbates] replaced by the
    empty adsorbate and nothing else changed; and the relaxations of the
    gases [{'gas': p['gas']}] with [gasname] set to CO, H2 and H2O in
    turn, nothing else changed. *)
Theorem calculate_energy_requires (env : db_env) p ads g :
  getitem p "adsorption" = Some (JDict ads) ->
  getitem p "gas" = Some (JDict g) ->
  exists blank ads' gco gh2 gh2o,
    requires env (CalculateEnergy p)
    = Some [SubmitToFW "slab+adsorbate" p; SubmitToFW "slab+adsorbate" blank;
            SubmitToFW "gas" (JDict [("gas", gco)]); SubmitToFW "gas" (JDict [("gas", gh2)]);
            SubmitToFW "gas" (JDict [("gas", gh2o)])] /\
    getitem blank "adsorption" = Some (JDict ads') /\
    getitem (JDict ads') "adsorbates" = Some no_adsorbates /\
    (forall k, k <> "adsorption" -> getitem blank k = getitem p k) /\
    (forall k, k <> "adsorbates" -> getitem (JDict ads') k = getitem (JDict ads) k) /\
    Forall (fun gn => getitem gn.1 "gasname" = Some (JStr gn.2) /\
                      forall k, k <> "gasname" -> getitem gn.1 k = getitem (JDict g) k)
      [(gco, "CO"); (gh2, "H2"); (gh2o, "H2O")].
Proof.
  intros Hads Hg.
  destruct (set_nested_spec p "adsorption" "adsorbates" no_adsorbates ads Hads)
    as (blank & ads' & Hb & Hb1 & Hb2 & Hb3 & Hb4).
  destruct (setitem_gas_spec g "CO") as (gco & Eco & Hco1 & Hco2).
  destruct (setitem_gas_spec g "H2") as (gh2 & Eh2 & Hh21 & Hh22).
  destruct (setitem_gas_spec g "H2O") as (gh2o & Eh2o & Hh2o1 & Hh2o2).
  exists blank, ads', gco, gh2, gh2o. split.
  - simpl. rewrite Hb, Hg. unfold map_opt_gas. rewrite Eco, Eh2, Eh2o. reflexivity.
  - split; [done|]. split; [done|]. split; [done|]. split; [done|].
    repeat constructor; simpl; auto.
Qed.

Definition ereq_env : db_env := {| env_missing_shift_surfaces := []; env_rows := []; env_local_fwids := [] |}.

Definition ereq_p : json :=
  JDict [("adsorption", JDict [("adsorbates", JList []); ("adsorption_site", JStr "top")]);
         ("gas", JDict [("gasname", JStr "N2"); ("xc", JStr "rpbe")])].

Lemma calculate_energy_requires_witness :
  exists blank ads' gco gh2 gh2o,
    requires ereq_env (CalculateEnergy ereq_p)
    = Some [SubmitToFW "slab+adsorbate" ereq_p; SubmitToFW "slab+adsorbate" blank;
            SubmitToFW "gas" (JDict [("gas", gco)]); SubmitToFW "gas" (JDict [("gas", gh2)]);
            SubmitToFW "gas" (JDict [("gas", gh2o)])] /\
    getitem blank "adsorption" = Some (JDict ads') /\
    getitem (JDict ads') "adsorbates" = Some no_adsorbates /\
    (forall k, k <> "adsorption" -> getitem blank k = getitem ereq_p k) /\
    (forall k, k <> "adsorbates" ->
       getitem (JDict ads') k = getitem (JDict [("adsorbates", JList []); ("adsorption_site", JStr "top")]) k) /\
    Forall (fun gn => getitem gn.1 "gasname" = Some (JStr gn.2) /\
                      forall k, k <> "gasname" ->
                        getitem gn.1 k = getitem (JDict [("gasname", JStr "N2"); ("xc", JStr "rpbe")]) k)
      [(gco, "CO"); (gh2, "H2"); (gh2o, "H2O")].
Proof.
  apply (calculate_energy_requires ereq_env ereq_p
           [("adsorbates", JList []); ("adsorption_site", JStr "top")]
           [("gasname", JStr "N2"); ("xc", JStr "rpbe")]); vm_compute; reflexivity.
Defined.

(** [CalculateEnergy(p).requires()] raises (KeyError or TypeError)
    exactly when [p['adsorption']] or [p['gas']] is missing or not a
    dict. *)
Theorem calculate_energy_requires_fails (env : db_env) p :
  requires env (CalculateEnergy p) = None <->
  (forall ads, getitem p "adsorption" <> Some (JDict ads)) \/
  (forall g, getitem p "gas" <> Some (JDict g)).
Proof.
  simpl. unfold set_nested.
  destruct (getitem p "adsorption") as [[| | | | |ads]|] eqn:Ha; simpl;
    try (split; [intros _; left; intros ? E; discriminate E|done]).
  destruct (getitem p "gas") as [[| | | | |g]|] eqn:Hg; simpl;
    try (destruct (setitem p _ _); (split; [intros _; right; intros ? E; discriminate E|done])).
  destruct (getitem_dict _ _ _ Ha) as [kvs ->]. unfold map_opt_gas. simpl.
  split; [intros E; discriminate E|].
  intros [H|H]; [by destruct (H ads)|by destruct (H g)].
Qed.

End RequiresExtra.
